(** * ShopSphere admin front end: toast queue and list synchronisation

    A shallow embedding of the client logic of the admin pages
    (user list page, product list page, add-product page): the
    toast helpers [showToast]/[removeToast] that every page repeats, and
    the handlers that keep the local list in step with the remote
    collection ([fetchUsers], [handleUserClick], [handleUpdateUser],
    [handleDeleteUser], [handleFavorite], [fetchProducts],
    [handleEditClick], [handleUpdateProduct], [handleSubmit]) and the
    photo pickers ([handleEditPhotoChange], [handlePhotoChange]).

    Modelling conventions, used throughout:
    - a property read that may give [undefined] is an [option string];
      a JavaScript [||] is [js_or]/[or_else], with the empty string falsy;
    - React state is a record; a functional update [setX(prev => f prev)]
      is [set_X f], a plain [setX(v)] is [set_X (fun _ => v)];
    - an [async] handler is cut at its [await fetch(...)]: the part before
      is a function returning [Await request continuation state] (or [Done]
      when it returns before the call), the part after is [resume], run on
      the state current when the response arrives. The continuation is
      data and carries the variables the closure captured;
    - [Math.random().toString(36).substring(7)] is an input [rnd] of every
      function that can call [showToast];
    - [setTimeout] arms an entry in a timer list with a due time on a
      logical millisecond clock; [advance] moves the clock and fires what
      is due. *)

From Stdlib Require Import Ascii String.
From stdpp Require Import base decidable option list gmap strings.

Local Open Scope string_scope.
Local Open Scope nat_scope.
Local Open Scope list_scope.

(** ** JavaScript truthiness on string-valued properties *)

Definition nonempty (s : string) : bool := negb (String.eqb s "").

(** [v] used as a condition; [None] is [undefined]. *)
Definition truthy (v : option string) : bool :=
  match v with
  | Some s => nonempty s
  | None => false
  end.

(** [a || b] on two property reads. *)
Definition js_or (a b : option string) : option string :=
  if truthy a then a else b.

(** [a || "literal"], whose value is always a string. *)
Definition or_else (a : option string) (dflt : string) : string :=
  match a with
  | Some s => if nonempty s then s else dflt
  | None => dflt
  end.

(** ** Toasts *)

Module Toasts.

Inductive ToastType : Type := success | error | info.

Record Toast : Type := mkToast {
  toast_id : string;
  toast_message : string;
  toast_type : ToastType
}.

#[global] Instance ToastType_eq_dec : EqDecision ToastType.
Proof. solve_decision. Defined.

#[global] Instance Toast_eq_dec : EqDecision Toast.
Proof. solve_decision. Defined.

(** The [toasts] state of a page together with the timers its
    [showToast] calls have armed and the clock they are measured on. *)
Record Queue : Type := mkQueue {
  toasts : list Toast;
  timers : list (nat * string);
  clock : nat
}.

Definition empty_queue : Queue := mkQueue [] [] 0.

Definition TOAST_DELAY : nat := 4000.

(** [prev.filter((toast) => toast.id !== id)] *)
Definition drop_toast (id : string) (prev : list Toast) : list Toast :=
  filter (λ toast, toast_id toast ≠ id) prev.

(** [showToast(message, type)], the drawn identifier being [rnd]:
    <<
    setToasts((prev) => [...prev, { id, message, type }]);
    setTimeout(() => { setToasts((prev) => prev.filter(...)) }, 4000);
    >> *)
Definition showToast (rnd message : string) (type : ToastType) (q : Queue) : Queue :=
  {| toasts := toasts q ++ [mkToast rnd message type];
     timers := timers q ++ [(clock q + TOAST_DELAY, rnd)];
     clock := clock q |}.

(** [removeToast(id)] *)
Definition removeToast (id : string) (q : Queue) : Queue :=
  {| toasts := drop_toast id (toasts q);
     timers := timers q;
     clock := clock q |}.

(** The callbacks of the timers in [due], run in the order they were armed. *)
Definition fire (due : list (nat * string)) (ts : list Toast) : list Toast :=
  foldl (λ acc (tm : nat * string), drop_toast tm.2 acc) ts due.

(** [dt] milliseconds pass with no other event: every timer whose due
    time has been reached runs its callback and is gone. *)
Definition advance (dt : nat) (q : Queue) : Queue :=
  let c := clock q + dt in
  {| toasts := fire (filter (λ tm : nat * string, tm.1 ≤ c) (timers q)) (toasts q);
     timers := filter (λ tm : nat * string, c < tm.1) (timers q);
     clock := c |}.

(** Operations on the queue as the presentation layer issues them. *)
Inductive QueueEvent : Type :=
  | Push (rnd message : string) (type : ToastType)
  | Dismiss (id : string)
  | Elapse (dt : nat).

Definition queue_step (q : Queue) (e : QueueEvent) : Queue :=
  match e with
  | Push rnd message type => showToast rnd message type q
  | Dismiss id => removeToast id q
  | Elapse dt => advance dt q
  end.

Definition queue_run (tr : list QueueEvent) (q : Queue) : Queue :=
  foldl queue_step q tr.



(** *** The queue as the specification words it

    A ledger of every message ever pushed, with the time of its push and
    whether a dismissal has named it since. A message is gone once it is
    dismissed or its age has reached the expiry duration. *)















(** The messages the pushes of a trace create, oldest first. *)
Definition pushed (tr : list QueueEvent) : list Toast :=
  omap (λ e, match e with
             | Push rnd message type => Some (mkToast rnd message type)
             | _ => None
             end) tr.

(** Every toast on display has a timer pending for its identifier, and
    every pending timer is due later than now and within the delay. *)
Definition armed (q : Queue) : Prop :=
  (∀ t, t ∈ toasts q → ∃ due, (due, toast_id t) ∈ timers q) ∧
  (∀ tm : nat * string, tm ∈ timers q → clock q < tm.1 ≤ clock q + TOAST_DELAY).

End Toasts.

(** ** The transport: what a [fetch] can come back with *)

(** A parsed JSON body, as far as the pages read it: [null], or an
    object with an optional [message], a string when it is there, and the
    entity payload. Any other non-null JSON value reads like an object
    without [message]. *)
Inductive Json (P : Type) : Type :=
  | JNull
  | JObject (message : option string) (payload : P).
Arguments JNull {P}.
Arguments JObject {P} message payload.

(** [body] is [inl msg] when [response.json()] rejects, with a
    SyntaxError whose message is [msg]. *)
Record Response (P : Type) : Type := mkResponse {
  status : nat;
  body : string + Json P
}.
Arguments mkResponse {P} status body.
Arguments status {P} r.
Arguments body {P} r.

(** [response.ok]: the status is in the range 200-299. *)
Definition ok {P} (r : Response P) : bool :=
  bool_decide (200 ≤ status r) && bool_decide (status r ≤ 299).

(** [await fetch(...)] either rejects, with an Error whose message is
    [msg], or resolves to a response. *)
Inductive Outcome (P : Type) : Type :=
  | Rejected (msg : string)
  | Resolved (r : Response P).
Arguments Rejected {P} msg.
Arguments Resolved {P} r.

(** The message of the TypeError raised by reading [prop] of [null]. *)
Definition null_read (prop : string) : string :=
  "Cannot read properties of null (reading '" +:+ prop +:+ "')".

(** [(await response.json().catch(() => ({}))).message]; [inl msg] is a
    TypeError thrown by the read. *)
Definition message_or_empty {P} (r : Response P) : string + option string :=
  match body r with
  | inl _ => inr None
  | inr JNull => inl (null_read "message")
  | inr (JObject m _) => inr m
  end.

(** [data && data.message] after the same [catch]. *)
Definition guarded_message {P} (r : Response P) : option string :=
  match body r with
  | inl _ => None
  | inr JNull => None
  | inr (JObject m _) => m
  end.

(** ** The user list page *)

Module Users.

Record User : Type := mkUser {
  User_id : option string;
  User__id : option string;
  fullName : option string;
  email : option string;
  mobile : option string;
  address : option string;
  gender : option string;
  createdAt : option string;
  updatedAt : option string
}.

#[global] Instance User_eq_dec : EqDecision User.
Proof. solve_decision. Defined.

(** The page's [useState] cells; [queue] is the [toasts] cell with its timers. *)
Record State : Type := mkState {
  users : list User;
  isLoading : bool;
  queue : Toasts.Queue;
  isModalOpen : bool;
  userDetails : option User;
  isLoadingDetails : bool;
  favoritedUsers : gset string;
  isFavoriting : option string;
  isUpdatingUser : bool;
  isDeletingUser : bool;
  showDeleteConfirm : bool
}.

Definition initial : State :=
  mkState [] true Toasts.empty_queue false None false ∅ None false false false.

Definition setUsers (f : list User → list User) (s : State) : State :=
  mkState (f (users s)) (isLoading s) (queue s) (isModalOpen s) (userDetails s)
          (isLoadingDetails s) (favoritedUsers s) (isFavoriting s)
          (isUpdatingUser s) (isDeletingUser s) (showDeleteConfirm s).

Definition setIsLoading (v : bool) (s : State) : State :=
  mkState (users s) v (queue s) (isModalOpen s) (userDetails s)
          (isLoadingDetails s) (favoritedUsers s) (isFavoriting s)
          (isUpdatingUser s) (isDeletingUser s) (showDeleteConfirm s).

Definition setToasts (f : Toasts.Queue → Toasts.Queue) (s : State) : State :=
  mkState (users s) (isLoading s) (f (queue s)) (isModalOpen s) (userDetails s)
          (isLoadingDetails s) (favoritedUsers s) (isFavoriting s)
          (isUpdatingUser s) (isDeletingUser s) (showDeleteConfirm s).

Definition setIsModalOpen (v : bool) (s : State) : State :=
  mkState (users s) (isLoading s) (queue s) v (userDetails s)
          (isLoadingDetails s) (favoritedUsers s) (isFavoriting s)
          (isUpdatingUser s) (isDeletingUser s) (showDeleteConfirm s).

Definition setUserDetails (f : option User → option User) (s : State) : State :=
  mkState (users s) (isLoading s) (queue s) (isModalOpen s) (f (userDetails s))
          (isLoadingDetails s) (favoritedUsers s) (isFavoriting s)
          (isUpdatingUser s) (isDeletingUser s) (showDeleteConfirm s).

Definition setFavoritedUsers (f : gset string → gset string) (s : State) : State :=
  mkState (users s) (isLoading s) (queue s) (isModalOpen s) (userDetails s)
          (isLoadingDetails s) (f (favoritedUsers s)) (isFavoriting s)
          (isUpdatingUser s) (isDeletingUser s) (showDeleteConfirm s).

Definition setIsFavoriting (v : option string) (s : State) : State :=
  mkState (users s) (isLoading s) (queue s) (isModalOpen s) (userDetails s)
          (isLoadingDetails s) (favoritedUsers s) v
          (isUpdatingUser s) (isDeletingUser s) (showDeleteConfirm s).

Definition setIsUpdatingUser (v : bool) (s : State) : State :=
  mkState (users s) (isLoading s) (queue s) (isModalOpen s) (userDetails s)
          (isLoadingDetails s) (favoritedUsers s) (isFavoriting s)
          v (isDeletingUser s) (showDeleteConfirm s).

Definition setIsDeletingUser (v : bool) (s : State) : State :=
  mkState (users s) (isLoading s) (queue s) (isModalOpen s) (userDetails s)
          (isLoadingDetails s) (favoritedUsers s) (isFavoriting s)
          (isUpdatingUser s) v (showDeleteConfirm s).

Definition setShowDeleteConfirm (v : bool) (s : State) : State :=
  mkState (users s) (isLoading s) (queue s) (isModalOpen s) (userDetails s)
          (isLoadingDetails s) (favoritedUsers s) (isFavoriting s)
          (isUpdatingUser s) (isDeletingUser s) v.

Definition toasts (s : State) : list Toasts.Toast := Toasts.toasts (queue s).

Definition showToast (rnd message : string) (type : Toasts.ToastType) : State → State :=
  setToasts (Toasts.showToast rnd message type).

Definition removeToast (id : string) : State → State :=
  setToasts (Toasts.removeToast id).

(** *** Requests, continuations *)

Inductive Request : Type :=
  | GET_admin_list
  | POST_admin_edit_user (payload : User)
  | POST_admin_delete_user (id : string)
  | POST_admin_favourites (id : string).

(** What is left of a handler after its [await fetch(...)], with the
    variables of its closure. *)
Inductive Continuation : Type :=
  | K_fetchUsers
  | K_handleUpdateUser (id : string) (userDetails : User)
  | K_handleDeleteUser (id : string)
  | K_handleFavorite (userId userName : string).

Inductive Async : Type :=
  | Done (s : State)
  | Await (req : Request) (k : Continuation) (s : State).

(** The body of a [try] block: the state after the setters it ran, and
    the message of the Error it threw, if it threw. *)
Definition Try : Type := State * option string.

(** [catch (error) { showToast(error instanceof Error ? error.message : ..., "error") }].
    Everything thrown in these handlers is an Error. *)
Definition catch (rnd : string) (t : Try) : State :=
  match t.2 with
  | Some msg => showToast rnd msg Toasts.error t.1
  | None => t.1
  end.

(** *** Identity *)

(** [(userDetails.id || userDetails._id || "") as string] *)
Definition details_id (d : User) : string :=
  or_else (js_or (User_id d) (User__id d)) "".

(** [(u.id || u._id) === id] *)
Definition has_id (id : string) (u : User) : bool :=
  bool_decide (js_or (User_id u) (User__id u) = Some id).

(** *** fetchUsers *)

Definition fetchUsers (s : State) : Async :=
  Await GET_admin_list K_fetchUsers (setIsLoading true s).

(** [data.userData] of a JSON object is taken to be an array, which is
    what the type of the [users] cell says it holds. *)
Definition resume_fetchUsers (o : Outcome (list User)) (rnd : string) (s : State) : State :=
  let attempt : Try :=
    match o with
    | Rejected msg => (s, Some msg)
    | Resolved response =>
        if negb (ok response) then (s, Some "Failed to fetch users")
        else match body response with
             | inl msg => (s, Some msg)
             | inr JNull => (s, Some (null_read "userData"))
             | inr (JObject _ userList) => (setUsers (λ _, userList) s, None)
             end
    end in
  setIsLoading false (catch rnd attempt).

(** *** handleFieldChange, closeModal *)

Inductive Field : Type := F_fullName | F_email | F_mobile | F_address | F_gender.

Definition with_field (field : Field) (value : string) (d : User) : User :=
  match field with
  | F_fullName => mkUser (User_id d) (User__id d) (Some value) (email d) (mobile d)
                         (address d) (gender d) (createdAt d) (updatedAt d)
  | F_email => mkUser (User_id d) (User__id d) (fullName d) (Some value) (mobile d)
                      (address d) (gender d) (createdAt d) (updatedAt d)
  | F_mobile => mkUser (User_id d) (User__id d) (fullName d) (email d) (Some value)
                       (address d) (gender d) (createdAt d) (updatedAt d)
  | F_address => mkUser (User_id d) (User__id d) (fullName d) (email d) (mobile d)
                        (Some value) (gender d) (createdAt d) (updatedAt d)
  | F_gender => mkUser (User_id d) (User__id d) (fullName d) (email d) (mobile d)
                       (address d) (Some value) (createdAt d) (updatedAt d)
  end.

Definition handleFieldChange (field : Field) (value : string) : State → State :=
  setUserDetails (λ prev, with_field field value <$> prev).

Definition closeModal (s : State) : State :=
  setUserDetails (λ _, None) (setIsModalOpen false s).

(** *** handleUpdateUser *)

(** [{ id, ...userDetails }]: a key [id] of [userDetails] overrides the one in front. *)
Definition edit_payload (id : string) (d : User) : User :=
  mkUser (match User_id d with Some x => Some x | None => Some id end)
         (User__id d) (fullName d) (email d) (mobile d) (address d) (gender d)
         (createdAt d) (updatedAt d).

(** The object built for the matching item:
    [{ ...u, fullName: userDetails.fullName || u.fullName, ... }] *)
Definition merged (d u : User) : User :=
  mkUser (User_id u) (User__id u)
         (js_or (fullName d) (fullName u))
         (js_or (email d) (email u))
         (js_or (mobile d) (mobile u))
         (js_or (address d) (address u))
         (js_or (gender d) (gender u))
         (createdAt u) (updatedAt u).

(** [prev.map((u) => (u.id || u._id) === id ? {...} : u)] *)
Definition apply_edit (id : string) (d : User) (prev : list User) : list User :=
  (λ u, if has_id id u then merged d u else u) <$> prev.

Definition handleUpdateUser (rnd : string) (s : State) : Async :=
  match userDetails s with
  | None => Done s
  | Some d =>
      if isUpdatingUser s then Done s
      else
        let id := details_id d in
        if negb (nonempty id)
        then Done (showToast rnd "User id is missing, cannot update." Toasts.error s)
        else Await (POST_admin_edit_user (edit_payload id d))
                   (K_handleUpdateUser id d)
                   (setIsUpdatingUser true s)
  end.

Definition resume_handleUpdateUser (id : string) (d : User)
    (o : Outcome (list User)) (rnd : string) (s : State) : State :=
  let attempt : Try :=
    match o with
    | Rejected msg => (s, Some msg)
    | Resolved response =>
        if negb (ok response) then
          match message_or_empty response with
          | inl type_error => (s, Some type_error)
          | inr message => (s, Some (or_else message "Failed to update user"))
          end
        else
          let s1 := setUsers (apply_edit id d) s in
          (showToast rnd
             (or_else (guarded_message response) "User details updated successfully!")
             Toasts.success s1, None)
    end in
  (* finally *)
  setUserDetails (λ _, None)
    (setIsModalOpen false
      (setIsUpdatingUser false (catch rnd attempt))).

(** *** handleDeleteUser *)

(** [prev.filter((u) => (u.id || u._id) !== id)] *)
Definition apply_delete (id : string) (prev : list User) : list User :=
  filter (λ u, has_id id u = false) prev.

(** [newSet = new Set(prev); newSet.delete(id)] *)
Definition unfavorite (id : string) (prev : gset string) : gset string :=
  prev ∖ {[id]}.

Definition handleDeleteUser (rnd : string) (s : State) : Async :=
  match userDetails s with
  | None => Done s
  | Some d =>
      if isDeletingUser s then Done s
      else
        let id := details_id d in
        if negb (nonempty id)
        then Done (showToast rnd "User id is missing, cannot delete." Toasts.error s)
        else Await (POST_admin_delete_user id)
                   (K_handleDeleteUser id)
                   (setIsDeletingUser true s)
  end.

Definition resume_handleDeleteUser (id : string)
    (o : Outcome (list User)) (rnd : string) (s : State) : State :=
  let attempt : Try :=
    match o with
    | Rejected msg => (s, Some msg)
    | Resolved response =>
        if negb (ok response) then
          match message_or_empty response with
          | inl type_error => (s, Some type_error)
          | inr message => (s, Some (or_else message "Failed to delete user"))
          end
        else
          let s1 := setUsers (apply_delete id) s in
          let s2 := setFavoritedUsers (unfavorite id) s1 in
          let s3 := showToast rnd
                      (or_else (guarded_message response) "User deleted successfully!")
                      Toasts.success s2 in
          (setShowDeleteConfirm false
             (setUserDetails (λ _, None) (setIsModalOpen false s3)), None)
    end in
  (* finally *)
  setIsDeletingUser false (catch rnd attempt).

(** *** handleFavorite *)

(** [if (newSet.has(userId)) newSet.delete(userId) else newSet.add(userId)] *)
Definition toggle (userId : string) (prev : gset string) : gset string :=
  if decide (userId ∈ prev) then prev ∖ {[userId]} else prev ∪ {[userId]}.

(** [if (isFavoriting) return;] reads a [string | null]. *)
Definition handleFavorite (userId userName : string) (s : State) : Async :=
  if truthy (isFavoriting s) then Done s
  else Await (POST_admin_favourites userId)
             (K_handleFavorite userId userName)
             (setIsFavoriting (Some userId) s).

Definition resume_handleFavorite (userId userName : string)
    (o : Outcome (list User)) (rnd : string) (s : State) : State :=
  let attempt : Try :=
    match o with
    | Rejected msg => (s, Some msg)
    | Resolved response =>
        if negb (ok response) then
          match message_or_empty response with
          | inl type_error => (s, Some type_error)
          | inr message => (s, Some (or_else message "Failed to add to favorites"))
          end
        else
          match body response with
          | inl syntax_error => (s, Some syntax_error)
          | inr data =>
              let s1 := setFavoritedUsers (toggle userId) s in
              match data with
              | JNull => (s1, Some (null_read "message"))
              | JObject message _ =>
                  (showToast rnd
                     (or_else message (userName +:+ " added to favorites successfully!"))
                     Toasts.success s1, None)
              end
          end
    end in
  (* finally *)
  setIsFavoriting None (catch rnd attempt).

(** *** The fallback rule, as a property of the result *)



(** *** Running the page *)

Definition resume (k : Continuation) : Outcome (list User) → string → State → State :=
  match k with
  | K_fetchUsers => resume_fetchUsers
  | K_handleUpdateUser id d => resume_handleUpdateUser id d
  | K_handleDeleteUser id => resume_handleDeleteUser id
  | K_handleFavorite userId userName => resume_handleFavorite userId userName
  end.

(** A call awaited to its end with nothing in between: the request, if
    one is made, comes back with [o]. *)
Definition complete (o : Outcome (list User)) (rnd : string) (a : Async) : State :=
  match a with
  | Done s => s
  | Await _ k s => resume k o rnd s
  end.

(** The transport invocations of a call. *)
Definition requests (a : Async) : list Request :=
  match a with
  | Done _ => []
  | Await req _ _ => [req]
  end.

(** The state right after the synchronous part of a call. *)
Definition state_of (a : Async) : State :=
  match a with
  | Done s => s
  | Await _ _ s => s
  end.

(** The page with the requests that are in flight and the log of every
    transport invocation made so far. *)
Record Machine : Type := mkMachine {
  page : State;
  inflight : list (Request * Continuation);
  net : list Request
}.

Definition boot : Machine := mkMachine initial [] [].

Definition dispatch (a : Async) (m : Machine) : Machine :=
  match a with
  | Done s => mkMachine s (inflight m) (net m)
  | Await req k s => mkMachine s (inflight m ++ [(req, k)]) (net m ++ [req])
  end.

Inductive Event : Type :=
  | Mount
  | ClickUpdate (rnd : string)
  | ClickDelete (rnd : string)
  | ClickFavorite (userId userName : string)
  | ChangeField (field : Field) (value : string)
  | ClickClose
  | ClickDismiss (id : string)
  | Settle (i : nat) (o : Outcome (list User)) (rnd : string)
  | Elapse (dt : nat).

Definition on_page (f : State → State) (m : Machine) : Machine :=
  mkMachine (f (page m)) (inflight m) (net m).

Definition step (m : Machine) (e : Event) : Machine :=
  match e with
  | Mount => dispatch (fetchUsers (page m)) m
  | ClickUpdate rnd => dispatch (handleUpdateUser rnd (page m)) m
  | ClickDelete rnd => dispatch (handleDeleteUser rnd (page m)) m
  | ClickFavorite userId userName => dispatch (handleFavorite userId userName (page m)) m
  | ChangeField field value => on_page (handleFieldChange field value) m
  | ClickClose => on_page closeModal m
  | ClickDismiss id => on_page (removeToast id) m
  | Settle i o rnd =>
      match inflight m !! i with
      | Some (_, k) => mkMachine (resume k o rnd (page m)) (delete i (inflight m)) (net m)
      | None => m
      end
  | Elapse dt => on_page (setToasts (Toasts.advance dt)) m
  end.

Definition run (tr : list Event) (m : Machine) : Machine := foldl step m tr.

Definition is_favourite_request (p : Request * Continuation) : bool :=
  match p.1 with
  | POST_admin_favourites _ => true
  | _ => false
  end.

(** Number of favourite-toggle requests in flight. *)
Definition toggling (m : Machine) : nat :=
  length (filter (λ p, is_favourite_request p = true) (inflight m)).

(** The identifier a table row hands to its handlers:
    [user.id || user._id || ""]. *)
Definition row_id (user : User) : string :=
  or_else (js_or (User_id user) (User__id user)) "".

Definition is_favourite_continuation (k : Continuation) : bool :=
  match k with
  | K_handleFavorite _ _ => true
  | _ => false
  end.

(** Every request in flight is followed by the continuation of the
    handler that made it. *)
Definition paired (p : Request * Continuation) : Prop :=
  is_favourite_request p = is_favourite_continuation p.2.

(** At most one favourite toggle is in flight, and [isFavoriting] is
    truthy while one is. *)
Definition single_slot (m : Machine) : Prop :=
  Forall paired (inflight m) ∧
  (toggling m = 0 ∨ (toggling m = 1 ∧ truthy (isFavoriting (page m)) = true)).

(** Every favourite click of the trace carries a non-empty identifier. *)
Definition favourite_ids_nonempty (tr : list Event) : Prop :=
  Forall (λ e, match e with ClickFavorite userId _ => userId ≠ "" | _ => True end) tr.

(** *** handleUserClick *)

Definition setIsLoadingDetails (v : bool) (s : State) : State :=
  mkState (users s) (isLoading s) (queue s) (isModalOpen s) (userDetails s)
          v (favoritedUsers s) (isFavoriting s)
          (isUpdatingUser s) (isDeletingUser s) (showDeleteConfirm s).

(** The body of the detail endpoint, as [handleUserClick] reads it: the
    object under [userData], the object under [user] ([None] when the key
    is missing or falsy), and the body itself read as user details. *)
Record Details : Type := mkDetails {
  detail_userData : option User;
  detail_user : option User;
  detail_self : User
}.

(** [data.userData || data.user || data] *)
Definition picked (data : Details) : User :=
  match detail_userData data with
  | Some u => u
  | None => match detail_user data with
            | Some u => u
            | None => detail_self data
            end
  end.

Inductive DetailRequest : Type :=
  | GET_admin_user (userId : string).

(** The part of [handleUserClick] before its [await fetch(...)]. *)
Definition handleUserClick (userId : string) (s : State) : DetailRequest * State :=
  (GET_admin_user userId,
   setUserDetails (λ _, None) (setIsLoadingDetails true (setIsModalOpen true s))).

Definition resume_handleUserClick (o : Outcome Details) (rnd : string) (s : State) : State :=
  let attempt : Try :=
    match o with
    | Rejected msg => (s, Some msg)
    | Resolved response =>
        if negb (ok response) then (s, Some "Failed to fetch user details")
        else match body response with
             | inl msg => (s, Some msg)
             | inr JNull => (s, Some (null_read "userData"))
             | inr (JObject _ data) => (setUserDetails (λ _, Some (picked data)) s, None)
             end
    end in
  setIsLoadingDetails false (catch rnd attempt).

(** [user[field]] for the fields the form edits. *)
Definition field_of (field : Field) (u : User) : option string :=
  match field with
  | F_fullName => fullName u
  | F_email => email u
  | F_mobile => mobile u
  | F_address => address u
  | F_gender => gender u
  end.

(** [response.ok] of what came back; a rejected [fetch] has none. *)
Definition succeeded {P} (o : Outcome P) : bool :=
  match o with
  | Rejected _ => false
  | Resolved r => ok r
  end.

(** *** The page with its detail requests *)

Inductive Kind : Type := KList | KEdit | KDelete | KFavourite.

#[global] Instance Kind_eq_dec : EqDecision Kind.
Proof. solve_decision. Defined.

Definition request_kind (req : Request) : Kind :=
  match req with
  | GET_admin_list => KList
  | POST_admin_edit_user _ => KEdit
  | POST_admin_delete_user _ => KDelete
  | POST_admin_favourites _ => KFavourite
  end.

Definition continuation_kind (k : Continuation) : Kind :=
  match k with
  | K_fetchUsers => KList
  | K_handleUpdateUser _ _ => KEdit
  | K_handleDeleteUser _ => KDelete
  | K_handleFavorite _ _ => KFavourite
  end.

(** Number of requests of one kind in flight. *)
Definition in_flight (kind : Kind) (m : Machine) : nat :=
  length (filter (λ p : Request * Continuation, request_kind p.1 = kind) (inflight m)).

Record Session : Type := mkSession {
  machine : Machine;
  details_inflight : list DetailRequest;
  details_net : list DetailRequest
}.

Definition start : Session := mkSession boot [] [].

Inductive Action : Type :=
  | Act (e : Event)
  | ClickRow (userId : string)
  | SettleDetails (i : nat) (o : Outcome Details) (rnd : string).

Definition act (x : Session) (a : Action) : Session :=
  match a with
  | Act e => mkSession (step (machine x) e) (details_inflight x) (details_net x)
  | ClickRow userId =>
      let call := handleUserClick userId (page (machine x)) in
      mkSession (on_page (λ _, call.2) (machine x))
                (details_inflight x ++ [call.1]) (details_net x ++ [call.1])
  | SettleDetails i o rnd =>
      match details_inflight x !! i with
      | Some _ => mkSession (on_page (resume_handleUserClick o rnd) (machine x))
                            (delete i (details_inflight x)) (details_net x)
      | None => x
      end
  end.

Definition play (tr : list Action) (x : Session) : Session := foldl act x tr.

(** The identifier column of the table: [u.id || u._id] of every row. *)
Definition row_ids (s : State) : list (option string) :=
  (λ u, js_or (User_id u) (User__id u)) <$> users s.

(** A pending flag and the number of requests it stands for. *)
Definition tracks (n : nat) (flag : bool) : Prop :=
  (n = 0 ∧ flag = false) ∨ (n = 1 ∧ flag = true).

(** Requests and continuations go in pairs of one kind, and each of the
    two pending flags is set exactly while one request of its kind is in
    flight. *)
Definition serial (m : Machine) : Prop :=
  Forall (λ p : Request * Continuation, request_kind p.1 = continuation_kind p.2)
         (inflight m) ∧
  tracks (in_flight KEdit m) (isUpdatingUser (page m)) ∧
  tracks (in_flight KDelete m) (isDeletingUser (page m)).

End Users.

(** ** Client-side validation shared by the product pages *)

(** Strings are sequences of 8-bit code units. [\s] on those: tab, line
    feed, vertical tab, form feed, carriage return, space, no-break space. *)
Definition is_space (c : ascii) : bool :=
  let n := nat_of_ascii c in
  bool_decide (9 ≤ n ≤ 13) || bool_decide (n = 32) || bool_decide (n = 160).

(** An anchored pattern made of single characters and [+]-repeated
    character classes. *)
Inductive Item : Type :=
  | One (class : ascii → bool)
  | Many1 (class : ascii → bool).

(** Backtracking match of the whole input against the items. *)
Fixpoint matches (items : list Item) (input : list ascii) {struct input} : bool :=
  match items, input with
  | [], [] => true
  | One class :: rest, c :: input' => class c && matches rest input'
  | Many1 class :: rest, c :: input' =>
      class c && (matches rest input' || matches (Many1 class :: rest) input')
  | _, _ => false
  end.

(** [[^\s@]] *)
Definition not_space_or_at (c : ascii) : bool :=
  negb (is_space c) && negb (Ascii.eqb c "@").

(** [/^[^\s@]+@[^\s@]+\.[^\s@]+$/] *)
Definition emailRegex : list Item :=
  [Many1 not_space_or_at; One (Ascii.eqb "@"); Many1 not_space_or_at;
   One (Ascii.eqb "."); Many1 not_space_or_at].

(** [emailRegex.test(email)] *)
Definition emailRegex_test (email : string) : bool :=
  matches emailRegex (list_ascii_of_string email).

(** ** Photo files *)

(** A [File], as far as the pages look at it. *)
Record File : Type := mkFile {
  file_name : string;
  file_type : string;
  file_size : N
}.

Definition validTypes : list string := ["image/jpeg"; "image/jpg"; "image/png"].

(** [5 * 1024 * 1024] *)
Definition maxSize : N := (5 * 1024 * 1024)%N.

(** ** The product list page *)

Module Products.

Record Product : Type := mkProduct {
  Product_id : option string;
  Product__id : option string;
  name : option string;
  link : option string;
  email : option string;
  photo : option string;
  description : option string;
  createdAt : option string;
  updatedAt : option string
}.

(** The cells [handleUpdateProduct] reads or writes. [editPhoto] is a
    [File | null]; a file is stood for by its name. *)
Record State : Type := mkState {
  products : list Product;
  queue : Toasts.Queue;
  isEditModalOpen : bool;
  productDetails : option Product;
  isUpdatingProduct : bool;
  editPhoto : option string;
  editPhotoPreview : string
}.

Definition setProducts (f : list Product → list Product) (s : State) : State :=
  mkState (f (products s)) (queue s) (isEditModalOpen s) (productDetails s)
          (isUpdatingProduct s) (editPhoto s) (editPhotoPreview s).

Definition setToasts (f : Toasts.Queue → Toasts.Queue) (s : State) : State :=
  mkState (products s) (f (queue s)) (isEditModalOpen s) (productDetails s)
          (isUpdatingProduct s) (editPhoto s) (editPhotoPreview s).

Definition setIsUpdatingProduct (v : bool) (s : State) : State :=
  mkState (products s) (queue s) (isEditModalOpen s) (productDetails s)
          v (editPhoto s) (editPhotoPreview s).

Definition closeEditModal (s : State) : State :=
  mkState (products s) (queue s) false None (isUpdatingProduct s) None "".

Definition toasts (s : State) : list Toasts.Toast := Toasts.toasts (queue s).

Definition showToast (rnd message : string) (type : Toasts.ToastType) : State → State :=
  setToasts (Toasts.showToast rnd message type).

(** The [photo] part of the form data: the new file or the existing URL. *)
Inductive PhotoPart : Type :=
  | Upload (file : string)
  | Existing (url : string).

Record FormData : Type := mkFormData {
  form_id : string;
  form_name : string;
  form_link : string;
  form_email : string;
  form_description : string;
  form_photo : option PhotoPart
}.

Inductive Async : Type :=
  | Done (s : State)
  | Await (formData : FormData) (id : string) (productDetails : Product)
          (editPhotoPreview : string) (s : State).

Definition details_id (d : Product) : string :=
  or_else (js_or (Product_id d) (Product__id d)) "".

Definition has_id (id : string) (p : Product) : bool :=
  bool_decide (js_or (Product_id p) (Product__id p) = Some id).

(** [x as string] on a property the checks before have found truthy. *)
Definition as_string (v : option string) : string := default "" v.

(** [{ ...p, name: productDetails.name || p.name, ...,
       photo: editPhotoPreview || productDetails.photo || p.photo }] *)
Definition merged (preview : string) (d p : Product) : Product :=
  mkProduct (Product_id p) (Product__id p)
            (js_or (name d) (name p))
            (js_or (link d) (link p))
            (js_or (email d) (email p))
            (js_or (js_or (Some preview) (photo d)) (photo p))
            (js_or (description d) (description p))
            (createdAt p) (updatedAt p).

Definition apply_edit (id preview : string) (d : Product) (prev : list Product)
    : list Product :=
  (λ p, if has_id id p then merged preview d p else p) <$> prev.

Section WithURL.

(** [new URL(link)] returns rather than throws. *)
Variable URL_parses : string → bool.

Definition handleUpdateProduct (rnd : string) (s : State) : Async :=
  match productDetails s with
  | None => Done s
  | Some d =>
      if isUpdatingProduct s then Done s
      else
        let id := details_id d in
        if negb (nonempty id)
        then Done (showToast rnd "Product id is missing, cannot update." Toasts.error s)
        else if negb (truthy (name d)) || negb (truthy (link d))
                || negb (truthy (email d)) || negb (truthy (description d))
        then Done (showToast rnd "Please fill in all required fields." Toasts.error s)
        else if negb (emailRegex_test (as_string (email d)))
        then Done (showToast rnd "Please enter a valid email address." Toasts.error s)
        else if negb (URL_parses (as_string (link d)))
        then Done (showToast rnd "Please enter a valid URL for the link field."
                     Toasts.error s)
        else
          let photo_part :=
            match editPhoto s with
            | Some file => Some (Upload file)
            | None => if truthy (photo d) then Some (Existing (as_string (photo d)))
                      else None
            end in
          Await (mkFormData id (as_string (name d)) (as_string (link d))
                            (as_string (email d)) (as_string (description d)) photo_part)
                id d (editPhotoPreview s)
                (setIsUpdatingProduct true s)
  end.

End WithURL.

Definition resume_handleUpdateProduct (id : string) (d : Product) (preview : string)
    (o : Outcome unit) (rnd : string) (s : State) : State :=
  let attempt : State * option string :=
    match o with
    | Rejected msg => (s, Some msg)
    | Resolved response =>
        if negb (ok response) then
          match message_or_empty response with
          | inl type_error => (s, Some type_error)
          | inr message => (s, Some (or_else message "Failed to update product"))
          end
        else
          let s1 := setProducts (apply_edit id preview d) s in
          let s2 := showToast rnd
                      (or_else (guarded_message response) "Product updated successfully!")
                      Toasts.success s1 in
          (closeEditModal s2, None)
    end in
  let caught := match attempt.2 with
                | Some msg => showToast rnd msg Toasts.error attempt.1
                | None => attempt.1
                end in
  setIsUpdatingProduct false caught.

Definition complete (o : Outcome unit) (rnd : string) (a : Async) : State :=
  match a with
  | Done s => s
  | Await _ id d preview s => resume_handleUpdateProduct id d preview o rnd s
  end.

Definition requests (a : Async) : list FormData :=
  match a with
  | Done _ => []
  | Await formData _ _ _ _ => [formData]
  end.

(** *** The rest of the page: loading the list, opening the edit modal *)

Definition setIsEditModalOpen (v : bool) (s : State) : State :=
  mkState (products s) (queue s) v (productDetails s)
          (isUpdatingProduct s) (editPhoto s) (editPhotoPreview s).

Definition setProductDetails (f : option Product → option Product) (s : State) : State :=
  mkState (products s) (queue s) (isEditModalOpen s) (f (productDetails s))
          (isUpdatingProduct s) (editPhoto s) (editPhotoPreview s).

Definition setEditPhoto (v : option string) (s : State) : State :=
  mkState (products s) (queue s) (isEditModalOpen s) (productDetails s)
          (isUpdatingProduct s) v (editPhotoPreview s).

Definition setEditPhotoPreview (v : string) (s : State) : State :=
  mkState (products s) (queue s) (isEditModalOpen s) (productDetails s)
          (isUpdatingProduct s) (editPhoto s) v.

(** The cells above with the two loading flags of the page. *)
Record Page : Type := mkPage {
  cells : State;
  isLoading : bool;
  isLoadingProduct : bool
}.

Definition initial : Page :=
  mkPage (mkState [] Toasts.empty_queue false None false None "") true false.

Definition on_cells (f : State → State) (p : Page) : Page :=
  mkPage (f (cells p)) (isLoading p) (isLoadingProduct p).

Definition setIsLoading (v : bool) (p : Page) : Page :=
  mkPage (cells p) v (isLoadingProduct p).

Definition setIsLoadingProduct (v : bool) (p : Page) : Page :=
  mkPage (cells p) (isLoading p) v.

(** [catch] of the two loaders. *)
Definition caught (rnd : string) (t : Page * option string) : Page :=
  match t.2 with
  | Some msg => on_cells (showToast rnd msg Toasts.error) t.1
  | None => t.1
  end.

(** The body of the list endpoint: the arrays under [productData],
    [products] and [data], [None] for a key that is missing or falsy. An
    array is truthy also when it is empty. *)
Record ListBody : Type := mkListBody {
  body_productData : option (list Product);
  body_products : option (list Product);
  body_data : option (list Product)
}.

(** [data.productData || data.products || data.data || []] *)
Definition listed (data : ListBody) : list Product :=
  match body_productData data with
  | Some l => l
  | None => match body_products data with
            | Some l => l
            | None => default [] (body_data data)
            end
  end.

(** [fetchProducts] up to its [await fetch(...)]. *)
Definition fetchProducts (p : Page) : Page := setIsLoading true p.

Definition resume_fetchProducts (o : Outcome ListBody) (rnd : string) (p : Page) : Page :=
  let attempt : Page * option string :=
    match o with
    | Rejected msg => (p, Some msg)
    | Resolved response =>
        if negb (ok response) then (p, Some "Failed to fetch products")
        else match body response with
             | inl msg => (p, Some msg)
             | inr JNull => (p, Some (null_read "productData"))
             | inr (JObject _ data) => (on_cells (setProducts (λ _, listed data)) p, None)
             end
    end in
  setIsLoading false (caught rnd attempt).

(** The body of the detail endpoint: the objects under [productData] and
    [product], and the body itself read as product details. *)
Record DetailBody : Type := mkDetailBody {
  detail_productData : option Product;
  detail_product : option Product;
  detail_self : Product
}.

(** [data.productData || data.product || data] *)
Definition picked (data : DetailBody) : Product :=
  match detail_productData data with
  | Some d => d
  | None => match detail_product data with
            | Some d => d
            | None => detail_self data
            end
  end.

(** [handleEditClick(productId)] up to its [await fetch(...)]. *)
Definition handleEditClick (productId : string) (p : Page) : string * Page :=
  (productId,
   on_cells (λ s, setEditPhotoPreview ""
                    (setEditPhoto None (setProductDetails (λ _, None) s)))
     (setIsLoadingProduct true (on_cells (setIsEditModalOpen true) p))).

Definition resume_handleEditClick (o : Outcome DetailBody) (rnd : string) (p : Page) : Page :=
  let attempt : Page * option string :=
    match o with
    | Rejected msg => (p, Some msg)
    | Resolved response =>
        if negb (ok response) then (p, Some "Failed to fetch product details")
        else match body response with
             | inl msg => (p, Some msg)
             | inr JNull => (p, Some (null_read "productData"))
             | inr (JObject _ data) =>
                 let productData := picked data in
                 let p1 := on_cells (setProductDetails (λ _, Some productData)) p in
                 (if truthy (photo productData)
                  then on_cells (setEditPhotoPreview (as_string (photo productData))) p1
                  else p1, None)
             end
    end in
  setIsLoadingProduct false (caught rnd attempt).

(** The fields the edit form changes through [handleFieldChange]. *)
Inductive Field : Type := F_name | F_link | F_email | F_description.

Definition with_field (field : Field) (value : string) (d : Product) : Product :=
  match field with
  | F_name => mkProduct (Product_id d) (Product__id d) (Some value) (link d) (email d)
                        (photo d) (description d) (createdAt d) (updatedAt d)
  | F_link => mkProduct (Product_id d) (Product__id d) (name d) (Some value) (email d)
                        (photo d) (description d) (createdAt d) (updatedAt d)
  | F_email => mkProduct (Product_id d) (Product__id d) (name d) (link d) (Some value)
                         (photo d) (description d) (createdAt d) (updatedAt d)
  | F_description => mkProduct (Product_id d) (Product__id d) (name d) (link d) (email d)
                               (photo d) (Some value) (createdAt d) (updatedAt d)
  end.

Definition handleFieldChange (field : Field) (value : string) : State → State :=
  setProductDetails (λ prev, with_field field value <$> prev).

(** [handleEditPhotoChange]: [file] is [e.target.files?.[0]]. The second
    component is the file handed to [reader.readAsDataURL], if any. *)
Definition handleEditPhotoChange (rnd : string) (file : option File) (s : State)
    : State * option File :=
  match file with
  | None => (s, None)
  | Some f =>
      if negb (bool_decide (file_type f ∈ validTypes))
      then (showToast rnd "Please upload a valid image file (JPG, PNG, or JPEG)."
              Toasts.error s, None)
      else if bool_decide (maxSize < file_size f)%N
      then (showToast rnd "Image size should be less than 5MB." Toasts.error s, None)
      else (setEditPhoto (Some (file_name f)) s, Some f)
  end.

(** [reader.onloadend] of a read that gave the data URL [result]. *)
Definition editPhoto_loaded (result : string) (s : State) : State :=
  setEditPhotoPreview result s.

End Products.

(** ** The add-product page: [handleSubmit] up to its first asynchronous step *)

Module AddProduct.

Record State : Type := mkState {
  name : string;
  link : string;
  email : string;
  photo : option string;
  description : string;
  isLoading : bool;
  queue : Toasts.Queue
}.

Definition showToast (rnd message : string) (type : Toasts.ToastType) (s : State) : State :=
  mkState (name s) (link s) (email s) (photo s) (description s) (isLoading s)
          (Toasts.showToast rnd message type (queue s)).

Definition setIsLoading (v : bool) (s : State) : State :=
  mkState (name s) (link s) (email s) (photo s) (description s) v (queue s).

(** [Returned s]: the handler has returned from one of its checks.
    [Submitting s]: it has gone past them and [setIsLoading(true)]; the
    file read and the [fetch] follow. *)
Inductive Submit : Type :=
  | Returned (s : State)
  | Submitting (s : State).

Section WithURL.

Variable URL_parses : string → bool.

Definition handleSubmit (rnd : string) (s : State) : Submit :=
  if negb (nonempty (name s)) || negb (nonempty (link s)) || negb (nonempty (email s))
     || negb (bool_decide (is_Some (photo s))) || negb (nonempty (description s))
  then Returned (showToast rnd "Please fill in all required fields." Toasts.error s)
  else if negb (emailRegex_test (email s))
  then Returned (showToast rnd "Please enter a valid email address." Toasts.error s)
  else if negb (URL_parses (link s))
  then Returned (showToast rnd "Please enter a valid URL for the link field."
                   Toasts.error s)
  else Submitting (setIsLoading true s).

End WithURL.

(** *** The rest of the page *)

(** The cells above with [photoPreview]. *)
Record Form : Type := mkForm {
  fields : State;
  photoPreview : string
}.

Definition on_fields (f : State → State) (x : Form) : Form :=
  mkForm (f (fields x)) (photoPreview x).

Definition setPhoto (v : option string) (s : State) : State :=
  mkState (name s) (link s) (email s) v (description s) (isLoading s) (queue s).

(** [handlePhotoChange]: [file] is [e.target.files?.[0]]. The second
    component is the file handed to [reader.readAsDataURL], if any. *)
Definition handlePhotoChange (rnd : string) (file : option File) (x : Form)
    : Form * option File :=
  match file with
  | None => (x, None)
  | Some f =>
      if negb (bool_decide (file_type f ∈ validTypes))
      then (on_fields (showToast rnd "Please upload a valid image file (JPG, PNG, or JPEG)."
                         Toasts.error) x, None)
      else if bool_decide (maxSize < file_size f)%N
      then (on_fields (showToast rnd "Image size should be less than 5MB." Toasts.error) x,
            None)
      else (on_fields (setPhoto (Some (file_name f))) x, Some f)
  end.

(** [reader.onloadend] of a read that gave the data URL [result]. *)
Definition photo_loaded (result : string) (x : Form) : Form :=
  mkForm (fields x) result.

(** What [handleSubmit] waits for after its checks: first the file read
    ([ReadError]: [reader.onerror] rejects, with an event that is not an
    Error, and no [fetch] is made), then the [fetch]. *)
Inductive Completion : Type :=
  | ReadError
  | Fetched (o : Outcome unit).

(** Number of transport invocations of a submission that got past the checks. *)
Definition fetches (c : Completion) : nat :=
  match c with
  | ReadError => 0
  | Fetched _ => 1
  end.

(** The success branch after [setIsLoading(false)] and the toast:
    every field set back to empty. *)
Definition cleared (x : Form) : Form :=
  mkForm (mkState "" "" "" None "" (isLoading (fields x)) (queue (fields x))) "".

(** [catch (error) { setIsLoading(false); showToast(..., "error") }] *)
Definition failed (rnd message : string) (x : Form) : Form :=
  on_fields (λ s, showToast rnd message Toasts.error (setIsLoading false s)) x.

(** [handleSubmit] from the file read on, on the form as it is by then. *)
Definition resume_handleSubmit (c : Completion) (rnd : string) (x : Form) : Form :=
  match c with
  | ReadError => failed rnd "An error occurred. Please try again" x
  | Fetched (Rejected msg) => failed rnd msg x
  | Fetched (Resolved response) =>
      match body response with
      | inl msg => failed rnd msg x
      | inr JNull => failed rnd (null_read "message") x
      | inr (JObject message _) =>
          if negb (ok response)
          then failed rnd (or_else message "Failed to add product. Please try again") x
          else cleared (on_fields (λ s, showToast rnd
                                          (or_else message "Product added successfully!")
                                          Toasts.success (setIsLoading false s)) x)
      end
  end.

(** The submission was accepted: the file was read, the status is in
    200-299 and the body is a JSON object. *)
Definition accepted (c : Completion) : bool :=
  match c with
  | Fetched (Resolved response) =>
      ok response && match body response with
                     | inr (JObject _ _) => true
                     | _ => false
                     end
  | _ => false
  end.

End AddProduct.

(** * Theorems *)

(** ** Lists *)

Section ListFacts.
Context {A B : Type}.



Lemma filter_all (P : A → Prop) `{!∀ x, Decision (P x)} (l : list A) :
  (∀ x, x ∈ l → P x) → filter P l = l.
Proof.
  induction l as [|a l IH]; intros Hall; [reflexivity|].
  rewrite filter_cons_True by (apply Hall; left).
  f_equal. apply IH. intros x Hx. apply Hall. right. exact Hx.
Qed.

Lemma filter_split_length (g : A → bool) (l : list A) :
  length (filter (λ x, g x = false) l) + length (filter (λ x, g x = true) l) = length l.
Proof.
  induction l as [|a l IH]; [reflexivity|].
  rewrite !filter_cons.
  destruct (g a) eqn:E; simpl; lia.
Qed.


End ListFacts.

(** ** The toast queue *)

Section ToastQueue.
Import Toasts.



Lemma fire_filter due ts :
  fire due ts = filter (λ t, toast_id t ∉ due.*2) ts.
Proof.
  unfold fire. revert ts.
  induction due as [|tm due IH]; intros ts; simpl.
  - symmetry. apply filter_all. intros t _. apply not_elem_of_nil.
  - rewrite IH. unfold drop_toast. rewrite list_filter_filter.
    apply list_filter_iff. intros t. rewrite not_elem_of_cons. tauto.
Qed.
















End ToastQueue.

Section ToastQueueClaims.
Import Toasts.





End ToastQueueClaims.

(** ** JavaScript truthiness *)

Lemma nonempty_true s : nonempty s = true ↔ s ≠ "".
Proof.
  unfold nonempty. rewrite negb_true_iff. apply String.eqb_neq.
Qed.


(** ** The user list page *)

Section UsersClaims.
Import Users.

(** C1. A call of [handleUpdateUser] that gets to resolve the identifier
    of the details being edited and finds it empty pushes one error toast
    saying so, makes no transport invocation, leaves nothing in flight,
    and leaves the user list as it was. *)
Theorem handleUpdateUser_missing_id (rnd : string) (m : Machine) (d : User) :
  userDetails (page m) = Some d →
  isUpdatingUser (page m) = false →
  details_id d = "" →
  let m' := step m (ClickUpdate rnd) in
  handleUpdateUser rnd (page m) =
    Done (showToast rnd "User id is missing, cannot update." Toasts.error (page m)) ∧
  toasts (page m') =
    toasts (page m) ++ [Toasts.mkToast rnd "User id is missing, cannot update." Toasts.error] ∧
  net m' = net m ∧
  inflight m' = inflight m ∧
  users (page m') = users (page m) ∧
  isUpdatingUser (page m') = false.
Proof.
  intros Hd Hidle Hid m'.
  assert (Hcall : handleUpdateUser rnd (page m) =
    Done (showToast rnd "User id is missing, cannot update." Toasts.error (page m))).
  { unfold handleUpdateUser. rewrite Hd, Hidle, Hid. reflexivity. }
  subst m'. simpl. rewrite Hcall. simpl.
  repeat split; try reflexivity. exact Hidle.
Qed.

Lemma handleUpdateUser_missing_id_witness :
  let d := mkUser None (Some "") (Some "Ann Lee") None None None None None None in
  let s := setUserDetails (λ _, Some d) initial in
  let m' := step (mkMachine s [] []) (ClickUpdate "q1w2e") in
  net m' = [] ∧
  toasts (page m') =
    [Toasts.mkToast "q1w2e" "User id is missing, cannot update." Toasts.error].
Proof.
  intros d s m'.
  destruct (handleUpdateUser_missing_id "q1w2e" (mkMachine s [] []) d)
    as (_ & Ht & Hn & _); [reflexivity | reflexivity | reflexivity |].
  split; [exact Hn | exact Ht].
Defined.

(** With no details open, or an update already running, the handler
    returns at once and changes nothing. *)
Lemma handleUpdateUser_guarded rnd s :
  userDetails s = None ∨ isUpdatingUser s = true →
  handleUpdateUser rnd s = Done s.
Proof.
  intros [Hnone|Hbusy]; unfold handleUpdateUser.
  - rewrite Hnone. reflexivity.
  - rewrite Hbusy. destruct (userDetails s); reflexivity.
Qed.

Lemma handleUpdateUser_starts rnd s d :
  userDetails s = Some d → isUpdatingUser s = false → details_id d ≠ "" →
  handleUpdateUser rnd s =
    Await (POST_admin_edit_user (edit_payload (details_id d) d))
          (K_handleUpdateUser (details_id d) d) (setIsUpdatingUser true s).
Proof.
  intros Hd Hidle Hid. unfold handleUpdateUser. rewrite Hd, Hidle.
  apply nonempty_true in Hid. rewrite Hid. reflexivity.
Qed.


Lemma apply_edit_lookup id d (prev : list User) i u :
  prev !! i = Some u →
  apply_edit id d prev !! i = Some (if has_id id u then merged d u else u).
Proof.
  intros Hi. unfold apply_edit. rewrite list_lookup_fmap, Hi. reflexivity.
Qed.



Lemma handleDeleteUser_starts rnd s d :
  userDetails s = Some d → isDeletingUser s = false → details_id d ≠ "" →
  handleDeleteUser rnd s =
    Await (POST_admin_delete_user (details_id d))
          (K_handleDeleteUser (details_id d)) (setIsDeletingUser true s).
Proof.
  intros Hd Hidle Hid. unfold handleDeleteUser. rewrite Hd, Hidle.
  apply nonempty_true in Hid. rewrite Hid. reflexivity.
Qed.

Lemma apply_delete_length id (prev : list User) :
  length (apply_delete id prev) =
  length prev - length (filter (λ u, has_id id u = true) prev).
Proof.
  unfold apply_delete.
  pose proof (filter_split_length (has_id id) prev). lia.
Qed.

Lemma apply_delete_single id (before after : list User) u :
  has_id id u = true →
  (∀ v, v ∈ before ++ after → has_id id v = false) →
  apply_delete id (before ++ u :: after) = before ++ after.
Proof.
  intros Hu Hothers. unfold apply_delete.
  rewrite filter_app, filter_cons_False by (rewrite Hu; discriminate).
  rewrite <- filter_app. apply filter_all. exact Hothers.
Qed.

Lemma unfavorite_gone id (prev : gset string) : id ∉ prev ∖ {[id]}.
Proof. rewrite elem_of_difference, elem_of_singleton. tauto. Qed.

Lemma unfavorite_other id x (prev : gset string) :
  x ≠ id → (x ∈ prev ∖ {[id]} ↔ x ∈ prev).
Proof. rewrite elem_of_difference, elem_of_singleton. tauto. Qed.

Lemma unfavorite_absent id (prev : gset string) : id ∉ prev → prev ∖ {[id]} = prev.
Proof.
  intros Habs. apply set_eq. intros x.
  rewrite elem_of_difference, elem_of_singleton.
  split; [tauto|]. intros Hx. split; [exact Hx|]. intros ->. tauto.
Qed.

(** C3, as the code has it. When the delete request comes back with a
    2xx status, the list the page holds loses every item whose identifier
    is the deleted one and keeps every other item, in order: its length
    goes down by the number of matching items. When exactly one item
    carries the identifier, exactly that item is removed and the length
    goes down by exactly 1. The identifier leaves the favourites set,
    which is a no-op when it was not in it, and no other identifier
    enters or leaves. *)
Theorem handleDeleteUser_success_removes (rnd rnd' : string) (s : State) (d : User)
    (r : Response (list User)) :
  userDetails s = Some d →
  isDeletingUser s = false →
  details_id d ≠ "" →
  ok r = true →
  let id := details_id d in
  let s' := complete (Resolved r) rnd' (handleDeleteUser rnd s) in
  users s' = filter (λ u, has_id id u = false) (users s) ∧
  length (users s') =
    length (users s) - length (filter (λ u, has_id id u = true) (users s)) ∧
  (∀ before u after,
     users s = before ++ u :: after →
     has_id id u = true →
     (∀ v, v ∈ before ++ after → has_id id v = false) →
     users s' = before ++ after ∧ length (users s') = length (users s) - 1) ∧
  (id ∉ favoritedUsers s') ∧
  (∀ x, x ≠ id → (x ∈ favoritedUsers s' ↔ x ∈ favoritedUsers s)) ∧
  (id ∉ favoritedUsers s → favoritedUsers s' = favoritedUsers s).
Proof.
  intros Hd Hidle Hid Hok id s'.
  assert (Hus : users s' = apply_delete id (users s)).
  { subst s'. rewrite (handleDeleteUser_starts rnd s d) by assumption. simpl.
    unfold resume_handleDeleteUser. rewrite Hok. reflexivity. }
  assert (Hfs : favoritedUsers s' = unfavorite id (favoritedUsers s)).
  { subst s'. rewrite (handleDeleteUser_starts rnd s d) by assumption. simpl.
    unfold resume_handleDeleteUser. rewrite Hok. reflexivity. }
  rewrite Hus, Hfs. unfold unfavorite.
  split; [reflexivity|]. split; [apply apply_delete_length|].
  split; [|split; [|split]].
  - intros before u after Hsplit Hu Hothers. rewrite Hsplit.
    rewrite apply_delete_single by assumption.
    split; [reflexivity|]. rewrite !length_app. simpl. lia.
  - apply unfavorite_gone.
  - intros x Hx. apply unfavorite_other. exact Hx.
  - apply unfavorite_absent.
Qed.

Lemma handleDeleteUser_success_removes_witness :
  let ann := mkUser (Some "1") None (Some "Ann Lee") None None None None None None in
  let bob := mkUser None (Some "2") (Some "Bob Ray") None None None None None None in
  let s := setFavoritedUsers (λ _, {["1"; "2"]})
             (setUserDetails (λ _, Some ann) (setUsers (λ _, [ann; bob]) initial)) in
  let r := mkResponse 200 (inr (JObject (Some "User removed") [])) in
  let s' := complete (Resolved r) "t1" (handleDeleteUser "t0" s) in
  users s' = [bob] ∧ length (users s') = 2 - 1 ∧ ("1" ∉ favoritedUsers s').
Proof.
  intros ann bob s r s'.
  destruct (handleDeleteUser_success_removes "t0" "t1" s ann r)
    as (_ & _ & Hone & Hfav & _);
    [reflexivity | reflexivity | discriminate | reflexivity |].
  destruct (Hone [] ann [bob]) as [Hus Hlen];
    [reflexivity | reflexivity | |].
  { intros v Hv. apply list_elem_of_singleton in Hv as ->. reflexivity. }
  split; [exact Hus|]. split; [exact Hlen | exact Hfav].
Defined.

(** C3, as stated, fails: with no local item carrying the identifier of
    the details being deleted, a successful delete removes nothing and the
    length stays what it was. *)
Lemma handleDeleteUser_success_may_remove_none :
  let bob := mkUser (Some "2") None (Some "Bob Ray") None None None None None None in
  let d := mkUser (Some "1") None (Some "Ann Lee") None None None None None None in
  let s := setUserDetails (λ _, Some d) (setUsers (λ _, [bob]) initial) in
  let r := mkResponse 200 (inr (JObject None [])) in
  let a := handleDeleteUser "t0" s in
  let s' := complete (Resolved r) "t1" a in
  requests a = [POST_admin_delete_user "1"] ∧
  ok r = true ∧
  users s' = users s ∧
  length (users s') ≠ length (users s) - 1.
Proof. vm_compute. repeat split; try reflexivity. discriminate. Qed.


(** C4, as the code has it. When the delete request comes back with a
    status outside 200-299 and a JSON object whose [message] is a
    non-empty string, exactly one toast is pushed, of kind error, with
    that message as its text; the user list and the favourites set are
    what they were, so every item carrying the identifier is still
    there; the deleting flag is back to false. *)
Theorem handleDeleteUser_failure_reports (rnd rnd' : string) (s : State) (d : User)
    (r : Response (list User)) (message : string) (payload : list User) :
  userDetails s = Some d →
  isDeletingUser s = false →
  details_id d ≠ "" →
  ok r = false →
  body r = inr (JObject (Some message) payload) →
  message ≠ "" →
  let s' := complete (Resolved r) rnd' (handleDeleteUser rnd s) in
  toasts s' = toasts s ++ [Toasts.mkToast rnd' message Toasts.error] ∧
  users s' = users s ∧
  favoritedUsers s' = favoritedUsers s ∧
  (∀ u, u ∈ users s → has_id (details_id d) u = true → u ∈ users s') ∧
  isDeletingUser s' = false.
Proof.
  intros Hd Hidle Hid Hok Hbody Hmsg s'.
  subst s'. rewrite (handleDeleteUser_starts rnd s d) by assumption. simpl.
  unfold resume_handleDeleteUser, message_or_empty. rewrite Hok, Hbody. simpl.
  apply nonempty_true in Hmsg. rewrite Hmsg.
  repeat split; try reflexivity. intros u Hu _. exact Hu.
Qed.

Lemma handleDeleteUser_failure_reports_witness :
  let ann := mkUser (Some "1") None (Some "Ann Lee") None None None None None None in
  let s := setUserDetails (λ _, Some ann) (setUsers (λ _, [ann]) initial) in
  let r := mkResponse 500 (inr (JObject (Some "locked") [])) in
  let s' := complete (Resolved r) "t1" (handleDeleteUser "t0" s) in
  toasts s' = [Toasts.mkToast "t1" "locked" Toasts.error] ∧ ann ∈ users s'.
Proof.
  intros ann s r s'.
  destruct (handleDeleteUser_failure_reports "t0" "t1" s ann r "locked" [])
    as (Ht & _ & _ & Hkept & _);
    [reflexivity | reflexivity | discriminate | reflexivity | reflexivity
    | discriminate |].
  split; [exact Ht|]. apply Hkept; [left | reflexivity].
Defined.

(** C4, as stated, fails: a body whose [message] is the empty string
    carries a message field, and the toast shows the fallback text. *)
Lemma handleDeleteUser_failure_empty_message :
  let ann := mkUser (Some "1") None (Some "Ann Lee") None None None None None None in
  let s := setUserDetails (λ _, Some ann) (setUsers (λ _, [ann]) initial) in
  let r := mkResponse 500 (inr (JObject (Some "") [])) in
  let s' := complete (Resolved r) "t1" (handleDeleteUser "t0" s) in
  ok r = false ∧
  toasts s' = [Toasts.mkToast "t1" "Failed to delete user" Toasts.error] ∧
  toasts s' ≠ [Toasts.mkToast "t1" "" Toasts.error].
Proof. vm_compute. repeat split; try reflexivity. discriminate. Qed.

Lemma toggle_involutive userId (prev : gset string) :
  toggle userId (toggle userId prev) = prev.
Proof.
  unfold toggle at 2. destruct (decide (userId ∈ prev)) as [Hin|Hout]; unfold toggle.
  - rewrite decide_False by apply unfavorite_gone.
    apply set_eq. intros x.
    rewrite elem_of_union, elem_of_difference, elem_of_singleton.
    destruct (decide (x = userId)) as [->|Hx]; tauto.
  - rewrite decide_True by (apply elem_of_union; right; apply elem_of_singleton; reflexivity).
    apply set_eq. intros x.
    rewrite elem_of_difference, elem_of_union, elem_of_singleton.
    destruct (decide (x = userId)) as [->|Hx]; tauto.
Qed.

Lemma toggle_flips userId (prev : gset string) :
  userId ∈ toggle userId prev ↔ userId ∉ prev.
Proof.
  unfold toggle. destruct (decide (userId ∈ prev)) as [Hin|Hout].
  - rewrite elem_of_difference, elem_of_singleton. tauto.
  - rewrite elem_of_union, elem_of_singleton. tauto.
Qed.

Lemma toggle_other userId x (prev : gset string) :
  x ≠ userId → (x ∈ toggle userId prev ↔ x ∈ prev).
Proof.
  intros Hx. unfold toggle. destruct (decide (userId ∈ prev)).
  - rewrite elem_of_difference, elem_of_singleton. tauto.
  - rewrite elem_of_union, elem_of_singleton. tauto.
Qed.

Lemma handleFavorite_completes userId userName rnd (s : State)
    (r : Response (list User)) data :
  truthy (isFavoriting s) = false → ok r = true → body r = inr data →
  let s' := complete (Resolved r) rnd (handleFavorite userId userName s) in
  favoritedUsers s' = toggle userId (favoritedUsers s) ∧ isFavoriting s' = None.
Proof.
  intros Hfree Hok Hbody. unfold handleFavorite. rewrite Hfree. simpl.
  unfold resume_handleFavorite. rewrite Hok, Hbody. simpl.
  destruct data; split; reflexivity.
Qed.

(** C5. The flip made by a favourite toggle that comes back with a 2xx
    status and a JSON body is an involution on the favourites set: it
    adds the identifier if it was absent and removes it if it was
    present, touching no other identifier, and a second such call, made
    after the first has completed, gives back the set the first call
    started from. *)
Theorem handleFavorite_twice_restores (userId name1 name2 rnd1 rnd2 : string)
    (s : State) (r1 r2 : Response (list User)) (data1 data2 : Json (list User)) :
  truthy (isFavoriting s) = false →
  ok r1 = true → body r1 = inr data1 →
  ok r2 = true → body r2 = inr data2 →
  let s1 := complete (Resolved r1) rnd1 (handleFavorite userId name1 s) in
  let s2 := complete (Resolved r2) rnd2 (handleFavorite userId name2 s1) in
  (∀ prev : gset string, toggle userId (toggle userId prev) = prev) ∧
  (userId ∈ favoritedUsers s1 ↔ userId ∉ favoritedUsers s) ∧
  (∀ x, x ≠ userId → (x ∈ favoritedUsers s1 ↔ x ∈ favoritedUsers s)) ∧
  favoritedUsers s2 = favoritedUsers s.
Proof.
  intros Hfree Hok1 Hb1 Hok2 Hb2 s1 s2.
  destruct (handleFavorite_completes userId name1 rnd1 s r1 data1 Hfree Hok1 Hb1)
    as [Hf1 Hslot1].
  fold s1 in Hf1, Hslot1.
  assert (Hfree1 : truthy (isFavoriting s1) = false) by (rewrite Hslot1; reflexivity).
  destruct (handleFavorite_completes userId name2 rnd2 s1 r2 data2 Hfree1 Hok2 Hb2)
    as [Hf2 _].
  fold s2 in Hf2.
  split; [intros prev; apply toggle_involutive|].
  rewrite Hf2, Hf1.
  split; [apply toggle_flips|].
  split; [intros x Hx; apply toggle_other; exact Hx | apply toggle_involutive].
Qed.

Lemma handleFavorite_twice_restores_witness :
  let s := setFavoritedUsers (λ _, {["7"]}) initial in
  let r := mkResponse 200 (inr (JObject (Some "ok") [])) in
  let s1 := complete (Resolved r) "a1" (handleFavorite "1" "Ann Lee" s) in
  let s2 := complete (Resolved r) "a2" (handleFavorite "1" "Ann Lee" s1) in
  ("1" ∈ favoritedUsers s1) ∧ favoritedUsers s2 = {["7"]}.
Proof.
  intros s r s1 s2.
  destruct (handleFavorite_twice_restores "1" "Ann Lee" "Ann Lee" "a1" "a2" s r r
              (JObject (Some "ok") []) (JObject (Some "ok") []))
    as (_ & Hflip & _ & Hback);
    [reflexivity | reflexivity | reflexivity | reflexivity | reflexivity |].
  split; [|exact Hback].
  apply Hflip. vm_compute. intros Hin. discriminate Hin.
Defined.


(** C9. [fetchUsers] that comes back with a 2xx status and a JSON object
    makes the [userData] of that object the whole user list and pushes
    no toast; one user with id "1" in the body gives a list of exactly
    that one user. When the [fetch] rejects, or the status is outside
    200-299, or the body is not JSON or is [null], the user list is
    what it was and exactly one toast, of kind error, is pushed. The
    loading flag is false at the end in every case. *)
Theorem fetchUsers_outcome (rnd : string) (s : State) :
  (∀ r message userList,
     ok r = true → body r = inr (JObject message userList) →
     let s' := complete (Resolved r) rnd (fetchUsers s) in
     users s' = userList ∧ toasts s' = toasts s ∧ isLoading s' = false) ∧
  (∀ r message ann,
     ok r = true → body r = inr (JObject message [ann]) → User_id ann = Some "1" →
     let s' := complete (Resolved r) rnd (fetchUsers s) in
     length (users s') = 1 ∧ ∀ u, u ∈ users s' → User_id u = Some "1") ∧
  (∀ o,
     match o with
     | Rejected _ => True
     | Resolved r => ok r = false ∨ (∃ msg, body r = inl msg) ∨ body r = inr JNull
     end →
     let s' := complete o rnd (fetchUsers s) in
     users s' = users s ∧
     (∃ text, toasts s' = toasts s ++ [Toasts.mkToast rnd text Toasts.error]) ∧
     isLoading s' = false).
Proof.
  split; [|split].
  - intros r message userList Hok Hbody. simpl.
    unfold resume_fetchUsers. rewrite Hok, Hbody. repeat split.
  - intros r message ann Hok Hbody Hid. simpl.
    unfold resume_fetchUsers. rewrite Hok, Hbody. simpl.
    split; [reflexivity|]. intros u Hu.
    apply list_elem_of_singleton in Hu as ->. exact Hid.
  - intros o Hfail. simpl. unfold resume_fetchUsers.
    destruct o as [msg|r]; [repeat split; eexists; reflexivity|].
    destruct (ok r) eqn:Hok; simpl; [|repeat split; eexists; reflexivity].
    destruct Hfail as [Hno|[[msg Hbody]|Hbody]]; [discriminate| |];
      rewrite Hbody; repeat split; eexists; reflexivity.
Qed.

Lemma fetchUsers_outcome_witness :
  let ann := mkUser (Some "1") None (Some "Ann Lee") (Some "ann@shop.io") None None
                    None None None in
  let old := mkUser (Some "9") None (Some "Old Row") None None None None None None in
  let s := setUsers (λ _, [old]) initial in
  users (complete (Resolved (mkResponse 200 (inr (JObject None [ann])))) "f1"
           (fetchUsers s)) = [ann] ∧
  users (complete (Resolved (mkResponse 503 (inl "Unexpected token"))) "f1"
           (fetchUsers s)) = [old] ∧
  users (complete (Rejected "Failed to fetch") "f1" (fetchUsers s)) = [old].
Proof.
  intros ann old s.
  destruct (fetchUsers_outcome "f1" s) as (Hload & _ & Hfail).
  split; [|split].
  - apply (Hload (mkResponse 200 (inr (JObject None [ann]))) None [ann]); reflexivity.
  - apply (Hfail (Resolved (mkResponse 503 (inl "Unexpected token")))).
    left. reflexivity.
  - apply (Hfail (Rejected "Failed to fetch")). exact I.
Defined.

(** C10. Once [handleUpdateUser] has passed its checks and made its
    request, whatever the request comes back with (a rejection, any
    status, any body) and whatever state the page is in by then, the
    handler ends with [isUpdatingUser] false, the modal closed and
    [userDetails] null. *)
Theorem handleUpdateUser_always_idle (rnd rnd' : string) (s : State) (d : User)
    (o : Outcome (list User)) :
  userDetails s = Some d →
  isUpdatingUser s = false →
  details_id d ≠ "" →
  let k := K_handleUpdateUser (details_id d) d in
  let s' := complete o rnd' (handleUpdateUser rnd s) in
  (isUpdatingUser s' = false ∧ isModalOpen s' = false ∧ userDetails s' = None) ∧
  state_of (handleUpdateUser rnd s) = setIsUpdatingUser true s ∧
  ∀ s1 : State,
    isUpdatingUser (resume k o rnd' s1) = false ∧
    isModalOpen (resume k o rnd' s1) = false ∧
    userDetails (resume k o rnd' s1) = None.
Proof.
  intros Hd Hidle Hid k s'. subst s'.
  rewrite (handleUpdateUser_starts rnd s d) by assumption. simpl.
  repeat split.
Qed.

Lemma handleUpdateUser_always_idle_witness :
  let d := mkUser None (Some "65f0") (Some "Ann Lee") None None None None None None in
  let s := setIsModalOpen true (setUserDetails (λ _, Some d) initial) in
  let s' := complete (Resolved (mkResponse 500 (inr JNull))) "t1"
              (handleUpdateUser "t0" s) in
  isUpdatingUser s' = false ∧ isModalOpen s' = false ∧ userDetails s' = None.
Proof.
  intros d s s'.
  apply (handleUpdateUser_always_idle "t0" "t1" s d
           (Resolved (mkResponse 500 (inr JNull))));
    [reflexivity | reflexivity | discriminate].
Defined.


(** *** The favourite slot *)

Lemma handleFavorite_ignored userId userName (m : Machine) :
  truthy (isFavoriting (page m)) = true →
  step m (ClickFavorite userId userName) = m.
Proof.
  intros Hheld. simpl. unfold handleFavorite. rewrite Hheld.
  destruct m; reflexivity.
Qed.

Lemma filter_delete_length {A} (P : A → Prop) `{!∀ x, Decision (P x)}
    (l : list A) i x :
  l !! i = Some x →
  length (filter P (delete i l)) =
  length (filter P l) - (if decide (P x) then 1 else 0).
Proof.
  revert i. induction l as [|a l IH]; intros i Hi; [discriminate|].
  destruct i as [|i].
  - injection Hi as ->. change (delete 0 (x :: l)) with l. rewrite filter_cons.
    destruct (decide (P x)); simpl; lia.
  - change (delete (S i) (a :: l)) with (a :: delete i l).
    change ((a :: l) !! S i) with (l !! i) in Hi.
    rewrite !filter_cons.
    destruct (decide (P a)); simpl; rewrite (IH i Hi); [|reflexivity].
    destruct (decide (P x)) as [Hx|Hx]; [|lia].
    assert (0 < length (filter P l)); [|lia].
    assert (Hin : x ∈ filter P l).
    { apply list_elem_of_filter. split; [exact Hx|].
      apply list_elem_of_lookup. exists i. exact Hi. }
    destruct (filter P l); [inversion Hin | simpl; lia].
Qed.

Lemma Forall_paired_delete i (l : list (Request * Continuation)) :
  Forall paired l → Forall paired (delete i l).
Proof.
  intros Hall. apply Forall_forall. intros p Hp.
  rewrite Forall_forall in Hall. apply Hall.
  apply list_elem_of_lookup in Hp as [j Hj].
  apply list_elem_of_lookup.
  destruct (decide (j < i)).
  - exists j. rewrite list_lookup_delete_lt in Hj by assumption. exact Hj.
  - exists (S j). rewrite list_lookup_delete_ge in Hj by lia. exact Hj.
Qed.

Lemma resume_keeps_slot k o rnd s :
  is_favourite_continuation k = false →
  isFavoriting (resume k o rnd s) = isFavoriting s.
Proof.
  destruct k as [|id d|id|userId userName]; intros Hk; try discriminate; simpl.
  - unfold resume_fetchUsers.
    destruct o as [msg|r]; [reflexivity|].
    destruct (ok r); [|reflexivity].
    destruct (body r) as [msg|[|message userList]]; reflexivity.
  - unfold resume_handleUpdateUser.
    destruct o as [msg|r]; [reflexivity|].
    destruct (ok r); [reflexivity|]. simpl.
    destruct (message_or_empty r); reflexivity.
  - unfold resume_handleDeleteUser.
    destruct o as [msg|r]; [reflexivity|].
    destruct (ok r); [reflexivity|]. simpl.
    destruct (message_or_empty r); reflexivity.
Qed.

Lemma toggling_dispatch_other a (m : Machine) :
  match a with
  | Done s => isFavoriting s = isFavoriting (page m)
  | Await req k s =>
      isFavoriting s = isFavoriting (page m) ∧
      is_favourite_request (req, k) = false ∧ is_favourite_continuation k = false
  end →
  single_slot m → single_slot (dispatch a m).
Proof.
  intros Ha [Hpair Hslot]. destruct a as [s|req k s]; simpl in *.
  - split; [exact Hpair|]. unfold toggling in *. simpl. rewrite Ha. exact Hslot.
  - destruct Ha as (Hfav & Hreq & Hk). split.
    + apply Forall_app. split; [exact Hpair|].
      apply Forall_singleton. unfold paired. simpl in *. rewrite Hk. exact Hreq.
    + unfold toggling in *. simpl. rewrite filter_app, length_app.
      rewrite filter_cons_False by (rewrite Hreq; discriminate).
      simpl. rewrite Nat.add_0_r, Hfav. exact Hslot.
Qed.

Lemma single_slot_on_page f (m : Machine) :
  isFavoriting (f (page m)) = isFavoriting (page m) →
  single_slot m → single_slot (on_page f m).
Proof.
  intros Hf [Hpair Hslot]. split; [exact Hpair|].
  unfold toggling in *. simpl. rewrite Hf. exact Hslot.
Qed.

Lemma single_slot_step (m : Machine) e :
  match e with ClickFavorite userId _ => userId ≠ "" | _ => True end →
  single_slot m → single_slot (step m e).
Proof.
  intros He Hinv.
  destruct e as [|rnd|rnd|userId userName|field value| |id|i o rnd|dt]; cbn [step].
  - apply toggling_dispatch_other; [|exact Hinv]. simpl. repeat split.
  - apply toggling_dispatch_other; [|exact Hinv].
    unfold handleUpdateUser.
    destruct (userDetails (page m)); [|reflexivity].
    destruct (isUpdatingUser (page m)); [reflexivity|].
    destruct (negb (nonempty (details_id u))); simpl; repeat split.
  - apply toggling_dispatch_other; [|exact Hinv].
    unfold handleDeleteUser.
    destruct (userDetails (page m)); [|reflexivity].
    destruct (isDeletingUser (page m)); [reflexivity|].
    destruct (negb (nonempty (details_id u))); simpl; repeat split.
  - unfold handleFavorite.
    destruct (truthy (isFavoriting (page m))) eqn:Hheld.
    + destruct m; exact Hinv.
    + destruct Hinv as [Hpair [Hnone|[_ Hbusy]]]; [|congruence].
      simpl. split.
      * simpl. apply Forall_app. split; [exact Hpair|].
        apply Forall_singleton. reflexivity.
      * right. unfold toggling in *. simpl. rewrite filter_app, length_app, Hnone.
        split; [reflexivity|]. apply nonempty_true. exact He.
  - apply single_slot_on_page; [|exact Hinv]. reflexivity.
  - apply single_slot_on_page; [|exact Hinv]. reflexivity.
  - apply single_slot_on_page; [|exact Hinv]. reflexivity.
  - simpl. destruct (inflight m !! i) as [[req k]|] eqn:Hi; [|exact Hinv].
    destruct Hinv as [Hpair Hslot].
    assert (Hp : paired (req, k)).
    { rewrite Forall_forall in Hpair. apply Hpair.
      apply list_elem_of_lookup. exists i. exact Hi. }
    unfold paired in Hp. simpl in Hp.
    split; [apply Forall_paired_delete; exact Hpair|].
    unfold toggling in *. simpl.
    rewrite (filter_delete_length _ _ i (req, k) Hi).
    destruct (is_favourite_continuation k) eqn:Hk.
    + rewrite decide_True by exact Hp. left.
      destruct Hslot as [->|[-> _]]; reflexivity.
    + rewrite decide_False by (rewrite Hp; discriminate).
      rewrite resume_keeps_slot by exact Hk.
      rewrite Nat.sub_0_r. exact Hslot.
  - apply single_slot_on_page; [|exact Hinv]. reflexivity.
Qed.

Lemma single_slot_boot : single_slot boot.
Proof. split; [constructor | left; reflexivity]. Qed.

Lemma single_slot_run (tr : list Event) (m : Machine) :
  favourite_ids_nonempty tr → single_slot m → single_slot (run tr m).
Proof.
  revert m. induction tr as [|e tr IH]; intros m Hids Hm; [exact Hm|].
  apply Forall_cons in Hids as [He Hids]. simpl.
  apply IH; [exact Hids|]. apply single_slot_step; assumption.
Qed.

(** X23. From the page as mounted, as long as favourite clicks carry
    non-empty identifiers, at most one favourite toggle is ever in flight,
    and a click made while one is in flight changes nothing at all. *)
Lemma favourite_slot_serialises (tr : list Event) :
  favourite_ids_nonempty tr →
  let m := run tr boot in
  toggling m ≤ 1 ∧
  (toggling m = 1 → ∀ userId userName, step m (ClickFavorite userId userName) = m).
Proof.
  intros Hids m.
  destruct (single_slot_run tr boot Hids single_slot_boot) as [_ [Hnone|[Hone Hheld]]];
    fold m in Hnone || fold m in Hone, Hheld.
  - split; [lia|]. intros Hone. congruence.
  - split; [lia|]. intros _ userId userName.
    apply handleFavorite_ignored. exact Hheld.
Qed.

(** C6, at the input where it fails. A row whose user has neither [id] nor
    [_id] hands the empty string to [handleFavorite]; the slot then holds
    the empty string, which the guard reads as free, and a click on
    another row while that request is pending makes a second request:
    two favourite toggles are in flight at once. *)
Theorem favourite_slot_empty_id_not_held :
  let ann := mkUser None None (Some "Ann Lee") (Some "ann@shop.io") None None None
                    None None in
  let bob := mkUser (Some "2") None (Some "Bob Ray") (Some "bob@shop.io") None None
                    None None None in
  let listed := Resolved (mkResponse 200 (inr (JObject None [ann; bob]))) in
  let loaded := run [Mount; Settle 0 listed "r0"] boot in
  let first := step loaded (ClickFavorite (row_id ann) "Ann Lee") in
  let second := step first (ClickFavorite (row_id bob) "Bob Ray") in
  users (page loaded) = [ann; bob] ∧
  row_id ann = "" ∧
  toggling first = 1 ∧
  isFavoriting (page first) = Some "" ∧
  toggling second = 2 ∧
  net second = [GET_admin_list; POST_admin_favourites ""; POST_admin_favourites "2"].
Proof. vm_compute. repeat split. Qed.

(** C8, at the input where it fails. Editing user "1" with the e-mail
    "bad", which the e-mail pattern of the product pages rejects,
    [handleUpdateUser] makes the edit request all the same, and on a 2xx
    answer writes "bad" into the list. *)
Theorem handleUpdateUser_sends_malformed_email :
  let ann := mkUser (Some "1") None (Some "Ann Lee") (Some "ann@shop.io") None None
                    None None None in
  let d := mkUser (Some "1") None None (Some "bad") None None None None None in
  let s := setUserDetails (λ _, Some d) (setUsers (λ _, [ann]) initial) in
  let a := handleUpdateUser "t0" s in
  let s' := complete (Resolved (mkResponse 200 (inr (JObject None [])))) "t1" a in
  emailRegex_test "bad" = false ∧
  requests a = [POST_admin_edit_user d] ∧
  toasts (state_of a) = [] ∧
  email <$> users s' = [Some "bad"].
Proof. vm_compute. repeat split. Qed.

(** No check of [handleUpdateUser] looks at the e-mail: whatever it is,
    details with a non-empty identifier go to the network. *)
Lemma handleUpdateUser_never_checks_email rnd s d :
  userDetails s = Some d → isUpdatingUser s = false → details_id d ≠ "" →
  requests (handleUpdateUser rnd s) =
    [POST_admin_edit_user (edit_payload (details_id d) d)].
Proof.
  intros Hd Hidle Hid. rewrite (handleUpdateUser_starts rnd s d) by assumption.
  reflexivity.
Qed.

End UsersClaims.

(** ** The product pages: the checks the user page does not make *)

Example emailRegex_examples :
  emailRegex_test "bad" = false ∧
  emailRegex_test "ann@shop.io" = true ∧
  emailRegex_test "ann@shop" = false ∧
  emailRegex_test "ann lee@shop.io" = false ∧
  emailRegex_test "a@b@shop.io" = false ∧
  emailRegex_test "ann@mail.shop.io" = true.
Proof. vm_compute. repeat split. Qed.

Section ProductsFacts.
Import Products.
Variable URL_parses : string → bool.

(** Whatever [handleUpdateProduct] sends has passed the required-field,
    e-mail and URL checks. *)
Lemma handleUpdateProduct_request_validated rnd s formData id d preview s1 :
  handleUpdateProduct URL_parses rnd s = Await formData id d preview s1 →
  emailRegex_test (form_email formData) = true ∧
  URL_parses (form_link formData) = true ∧
  form_id formData ≠ "" ∧
  form_name formData ≠ "" ∧ form_description formData ≠ "".
Proof.
  unfold handleUpdateProduct.
  destruct (productDetails s) as [d0|]; [|discriminate].
  destruct (isUpdatingProduct s); [discriminate|].
  destruct (nonempty (details_id d0)) eqn:Hid; [|discriminate]. simpl.
  destruct (truthy (name d0)) eqn:Hname; [|discriminate].
  destruct (truthy (link d0)) eqn:Hlink; [|discriminate].
  destruct (truthy (email d0)) eqn:Hemail; [|discriminate].
  destruct (truthy (description d0)) eqn:Hdesc; [|discriminate]. simpl.
  destruct (emailRegex_test (as_string (email d0))) eqn:Hre; [|discriminate].
  destruct (URL_parses (as_string (link d0))) eqn:Hurl; [|discriminate]. simpl.
  intros [= <- <- <- <- <-]. simpl.
  split; [exact Hre|]. split; [exact Hurl|].
  split; [apply nonempty_true; exact Hid|].
  destruct (name d0) as [n|]; [|discriminate].
  destruct (description d0) as [ds|]; [|discriminate].
  split; apply nonempty_true; assumption.
Qed.

(** An e-mail the pattern rejects stops [handleUpdateProduct] before the
    network, with one error toast. *)
Lemma handleUpdateProduct_rejects_email rnd s d :
  productDetails s = Some d →
  isUpdatingProduct s = false →
  details_id d ≠ "" →
  truthy (name d) = true → truthy (link d) = true →
  truthy (email d) = true → truthy (description d) = true →
  emailRegex_test (as_string (email d)) = false →
  handleUpdateProduct URL_parses rnd s =
    Done (showToast rnd "Please enter a valid email address." Toasts.error s).
Proof.
  intros Hd Hidle Hid Hn Hl He Hds Hre. unfold handleUpdateProduct.
  apply nonempty_true in Hid.
  rewrite Hd, Hidle, Hid, Hn, Hl, He, Hds, Hre. reflexivity.
Qed.

(** The merge of [handleUpdateProduct] follows the same fallback rule,
    the new photo being the preview if there is one. *)
Lemma handleUpdateProduct_merge id preview d (prev : list Product) i p :
  prev !! i = Some p →
  ∃ p', apply_edit id preview d prev !! i = Some p' ∧
    (has_id id p = false → p' = p) ∧
    (has_id id p = true →
       Product_id p' = Product_id p ∧ Product__id p' = Product__id p ∧
       name p' = js_or (name d) (name p) ∧
       link p' = js_or (link d) (link p) ∧
       email p' = js_or (email d) (email p) ∧
       description p' = js_or (description d) (description p) ∧
       photo p' = js_or (js_or (Some preview) (photo d)) (photo p) ∧
       createdAt p' = createdAt p ∧ updatedAt p' = updatedAt p).
Proof.
  intros Hi. unfold apply_edit. rewrite list_lookup_fmap, Hi. simpl.
  eexists. split; [reflexivity|].
  split; intros Hp; rewrite Hp; [reflexivity | repeat split].
Qed.

(** [handleSubmit] of the add-product page goes on to the network only
    with an e-mail the pattern accepts. *)
Lemma handleSubmit_checks_email rnd s s1 :
  AddProduct.handleSubmit URL_parses rnd s = AddProduct.Submitting s1 →
  emailRegex_test (AddProduct.email s) = true ∧ URL_parses (AddProduct.link s) = true.
Proof.
  unfold AddProduct.handleSubmit.
  destruct (_ || _); [discriminate|].
  destruct (emailRegex_test (AddProduct.email s)); [|discriminate].
  destruct (URL_parses (AddProduct.link s)); [|discriminate].
  intros _. split; reflexivity.
Qed.

End ProductsFacts.

Example handleUpdateProduct_bad_email :
  let d := Products.mkProduct (Some "1") None (Some "Lamp") (Some "https://shop.io/lamp")
             (Some "bad") None (Some "A lamp") None None in
  let s := Products.mkState [d] Toasts.empty_queue true (Some d) false None "" in
  Products.requests (Products.handleUpdateProduct (λ _, true) "t0" s) = [] ∧
  Products.toasts (match Products.handleUpdateProduct (λ _, true) "t0" s with
                   | Products.Done s' => s'
                   | Products.Await _ _ _ _ s' => s'
                   end)
  = [Toasts.mkToast "t0" "Please enter a valid email address." Toasts.error].
Proof. vm_compute. repeat split. Qed.

(** * Further properties *)

(** ** The toast queue: expiry and order *)

Section ToastQueueMore.
Import Toasts.

Lemma filter_none {A} (P : A → Prop) `{!∀ x, Decision (P x)} (l : list A) :
  (∀ x, x ∈ l → ¬ P x) → filter P l = [].
Proof.
  induction l as [|a l IH]; intros Hno; [reflexivity|].
  rewrite filter_cons_False by (apply Hno; left).
  apply IH. intros x Hx. apply Hno. right. exact Hx.
Qed.

Lemma armed_empty : armed empty_queue.
Proof. split; intros x Hx; inversion Hx. Qed.

Lemma armed_step q e : armed q → armed (queue_step q e).
Proof.
  intros [Htoast Htimer]. destruct e as [rnd message type|id|dt]; simpl.
  - split; simpl.
    + intros t Ht. apply elem_of_app in Ht as [Ht|Ht].
      * destruct (Htoast t Ht) as [due Hdue]. exists due.
        apply elem_of_app. left. exact Hdue.
      * apply list_elem_of_singleton in Ht as ->. exists (clock q + TOAST_DELAY).
        apply elem_of_app. right. left.
    + intros tm Htm. apply elem_of_app in Htm as [Htm|Htm].
      * apply Htimer. exact Htm.
      * apply list_elem_of_singleton in Htm as ->. simpl. unfold TOAST_DELAY. lia.
  - split; simpl; [|exact Htimer].
    intros t Ht. apply list_elem_of_filter in Ht as [_ Ht]. apply Htoast. exact Ht.
  - split; simpl.
    + intros t Ht. rewrite fire_filter in Ht.
      apply list_elem_of_filter in Ht as [Hkept Ht].
      destruct (Htoast t Ht) as [due Hdue]. exists due.
      apply list_elem_of_filter. split; [|exact Hdue]. simpl.
      destruct (decide (clock q + dt < due)) as [Hlater|Hnow]; [exact Hlater|].
      exfalso. apply Hkept.
      apply list_elem_of_fmap. exists (due, toast_id t). split; [reflexivity|].
      apply list_elem_of_filter. split; [simpl; lia | exact Hdue].
    + intros tm Htm. apply list_elem_of_filter in Htm as [Hlater Htm].
      specialize (Htimer tm Htm). lia.
Qed.

Lemma armed_run tr q : armed q → armed (queue_run tr q).
Proof.
  revert q. induction tr as [|e tr IH]; intros q Hq; [exact Hq|].
  simpl. apply IH. apply armed_step. exact Hq.
Qed.

Lemma armed_quiet dt q :
  armed q → TOAST_DELAY ≤ dt →
  toasts (advance dt q) = [] ∧ timers (advance dt q) = [].
Proof.
  intros [Htoast Htimer] Hdt. simpl.
  assert (Hall : filter (λ tm : nat * string, tm.1 ≤ clock q + dt) (timers q) = timers q).
  { apply filter_all. intros tm Htm. specialize (Htimer tm Htm). lia. }
  split.
  - rewrite Hall, fire_filter. apply filter_none.
    intros t Ht Hnone. destruct (Htoast t Ht) as [due Hdue]. apply Hnone.
    apply list_elem_of_fmap. exists (due, toast_id t). split; [reflexivity | exact Hdue].
  - apply filter_none. intros tm Htm Hlater. specialize (Htimer tm Htm). lia.
Qed.

(** X1. After any sequence of pushes, dismissals and elapsed time, whatever
    identifiers were drawn, 4000 ms without another event leave nothing
    on display and no timer pending: no toast outlives its delay. *)
Theorem queue_drains (tr : list QueueEvent) (dt : nat) :
  4000 ≤ dt →
  toasts (queue_run (tr ++ [Elapse dt]) empty_queue) = [] ∧
  timers (queue_run (tr ++ [Elapse dt]) empty_queue) = [].
Proof.
  intros Hdt. unfold queue_run. rewrite foldl_app. simpl.
  apply armed_quiet; [|exact Hdt].
  apply (armed_run tr empty_queue armed_empty).
Qed.

Lemma queue_drains_witness :
  toasts (queue_run ([Push "a" "saved" success; Elapse 3999; Push "a" "again" info;
                      Dismiss "zz"] ++ [Elapse 4000]) empty_queue) = [].
Proof. apply (queue_drains _ 4000). lia. Defined.

Lemma pushed_cons e tr : pushed (e :: tr) = pushed [e] ++ pushed tr.
Proof. apply (omap_app _ [e] tr). Qed.

Lemma toasts_step_sublist q e :
  toasts (queue_step q e) `sublist_of` toasts q ++ pushed [e].
Proof.
  destruct e as [rnd message type|id|dt]; simpl.
  - reflexivity.
  - rewrite app_nil_r. apply sublist_filter.
  - rewrite app_nil_r, fire_filter. apply sublist_filter.
Qed.

Lemma toasts_run_sublist tr q :
  toasts (queue_run tr q) `sublist_of` toasts q ++ pushed tr.
Proof.
  revert q. induction tr as [|e tr IH]; intros q.
  - simpl. rewrite app_nil_r. reflexivity.
  - change (queue_run (e :: tr) q) with (queue_run tr (queue_step q e)).
    etransitivity; [apply IH|].
    rewrite (pushed_cons e tr), app_assoc.
    apply sublist_app; [apply toasts_step_sublist | reflexivity].
Qed.

(** X2. What is on display is always a sub-sequence of the messages
    pushed so far, in the order of their pushes: nothing is shown that was
    not pushed, nothing is shown twice for one push, and no later event
    reorders the display. *)
Theorem queue_keeps_push_order (tr : list QueueEvent) :
  toasts (queue_run tr empty_queue) `sublist_of` pushed tr.
Proof. apply (toasts_run_sublist tr empty_queue). Qed.

End ToastQueueMore.

(** ** The e-mail pattern *)

Section EmailPattern.

Lemma matches_end input : matches [] input = true ↔ input = [].
Proof. destruct input; simpl; split; congruence. Qed.

Lemma matches_one class rest input :
  matches (One class :: rest) input = true ↔
  ∃ c tail, input = c :: tail ∧ class c = true ∧ matches rest tail = true.
Proof.
  destruct input as [|c tail]; simpl.
  - split; [discriminate | intros (c & tail & Habs & _); discriminate].
  - rewrite andb_true_iff. split.
    + intros [Hc Hrest]. exists c, tail. auto.
    + intros (c' & tail' & [= -> ->] & Hc & Hrest). auto.
Qed.

Lemma matches_many1 class rest input :
  matches (Many1 class :: rest) input = true ↔
  ∃ run tail, input = run ++ tail ∧ run ≠ [] ∧
              Forall (λ c, class c = true) run ∧ matches rest tail = true.
Proof.
  induction input as [|c input IH]; simpl.
  - split; [discriminate|].
    intros (run & tail & Hsplit & Hrun & _). destruct run; [congruence | discriminate].
  - rewrite andb_true_iff, orb_true_iff, IH. split.
    + intros [Hc [Hrest|(run & tail & -> & Hrun & Hall & Hrest)]].
      * exists [c], input. repeat split; [discriminate | | exact Hrest].
        apply Forall_singleton. exact Hc.
      * exists (c :: run), tail. repeat split; [discriminate | | exact Hrest].
        apply Forall_cons. split; assumption.
    + intros (run & tail & Hsplit & Hrun & Hall & Hrest).
      destruct run as [|c' run]; [congruence|].
      injection Hsplit as <- ->.
      apply Forall_cons in Hall as [Hc Hall]. split; [exact Hc|].
      destruct run as [|c'' run]; [left; exact Hrest|].
      right. exists (c'' :: run), tail. repeat split; [discriminate | exact Hall | exact Hrest].
Qed.

(** X3. The e-mail pattern of the product pages accepts exactly the
    strings made of a non-empty local part, one "@", a non-empty domain
    label, a "." and a non-empty rest, none of the three parts holding a
    white-space character or a further "@". *)
Theorem emailRegex_accepts (email : string) :
  emailRegex_test email = true ↔
  ∃ local domain rest : list ascii,
    list_ascii_of_string email = local ++ "@"%char :: domain ++ "."%char :: rest ∧
    local ≠ [] ∧ domain ≠ [] ∧ rest ≠ [] ∧
    Forall (λ c, not_space_or_at c = true) local ∧
    Forall (λ c, not_space_or_at c = true) domain ∧
    Forall (λ c, not_space_or_at c = true) rest.
Proof.
  unfold emailRegex_test, emailRegex. rewrite matches_many1. split.
  - intros (local & tail & Hsplit & Hlocal & Hall1 & Hrest).
    apply matches_one in Hrest as (at_ & tail1 & -> & Hat & Hrest).
    apply Ascii.eqb_eq in Hat as <-.
    apply matches_many1 in Hrest as (domain & tail2 & -> & Hdomain & Hall2 & Hrest).
    apply matches_one in Hrest as (dot & tail3 & -> & Hdot & Hrest).
    apply Ascii.eqb_eq in Hdot as <-.
    apply matches_many1 in Hrest as (rest & tail4 & -> & Hne & Hall3 & Hrest).
    apply matches_end in Hrest as ->. rewrite app_nil_r in Hsplit.
    exists local, domain, rest. auto 10.
  - intros (local & domain & rest & Hsplit & Hl & Hd & Hr & Hall1 & Hall2 & Hall3).
    exists local, ("@"%char :: domain ++ "."%char :: rest).
    split; [exact Hsplit|]. split; [exact Hl|]. split; [exact Hall1|].
    apply matches_one. exists "@"%char, (domain ++ "."%char :: rest).
    split; [reflexivity|]. split; [reflexivity|].
    apply matches_many1. exists domain, ("."%char :: rest).
    split; [reflexivity|]. split; [exact Hd|]. split; [exact Hall2|].
    apply matches_one. exists "."%char, rest.
    split; [reflexivity|]. split; [reflexivity|].
    apply matches_many1. exists rest, [].
    split; [symmetry; apply app_nil_r|]. split; [exact Hr|]. split; [exact Hall3|].
    reflexivity.
Qed.

End EmailPattern.

(** ** The user list page: what is in flight *)

Section UsersSerial.
Import Users.

Lemma resume_updating_flag k o rnd s :
  isUpdatingUser (resume k o rnd s) =
  if decide (continuation_kind k = KEdit) then false else isUpdatingUser s.
Proof.
  destruct k as [|id d|id|userId userName]; simpl.
  - unfold resume_fetchUsers. destruct o as [msg|r]; [reflexivity|].
    destruct (ok r); [|reflexivity].
    destruct (body r) as [msg|[|message userList]]; reflexivity.
  - reflexivity.
  - unfold resume_handleDeleteUser. destruct o as [msg|r]; [reflexivity|].
    destruct (ok r); [reflexivity|]. simpl.
    destruct (message_or_empty r); reflexivity.
  - unfold resume_handleFavorite. destruct o as [msg|r]; [reflexivity|].
    destruct (ok r); simpl.
    + destruct (body r) as [msg|[|message userList]]; reflexivity.
    + destruct (message_or_empty r); reflexivity.
Qed.

Lemma resume_deleting_flag k o rnd s :
  isDeletingUser (resume k o rnd s) =
  if decide (continuation_kind k = KDelete) then false else isDeletingUser s.
Proof.
  destruct k as [|id d|id|userId userName]; simpl.
  - unfold resume_fetchUsers. destruct o as [msg|r]; [reflexivity|].
    destruct (ok r); [|reflexivity].
    destruct (body r) as [msg|[|message userList]]; reflexivity.
  - unfold resume_handleUpdateUser. destruct o as [msg|r]; [reflexivity|].
    destruct (ok r); [reflexivity|]. simpl.
    destruct (message_or_empty r); reflexivity.
  - reflexivity.
  - unfold resume_handleFavorite. destruct o as [msg|r]; [reflexivity|].
    destruct (ok r); simpl.
    + destruct (body r) as [msg|[|message userList]]; reflexivity.
    + destruct (message_or_empty r); reflexivity.
Qed.

Lemma in_flight_dispatch kind req k s (m : Machine) :
  in_flight kind (dispatch (Await req k s) m) =
  in_flight kind m + (if decide (request_kind req = kind) then 1 else 0).
Proof.
  unfold in_flight. simpl. rewrite filter_app, length_app. f_equal.
  rewrite filter_cons. simpl. destruct (decide (request_kind req = kind)); reflexivity.
Qed.

Lemma in_flight_settled kind (m : Machine) i req k s :
  inflight m !! i = Some (req, k) →
  in_flight kind (mkMachine s (delete i (inflight m)) (net m)) =
  in_flight kind m - (if decide (request_kind req = kind) then 1 else 0).
Proof.
  intros Hi. unfold in_flight. simpl.
  rewrite (filter_delete_length _ _ i (req, k) Hi). reflexivity.
Qed.

Lemma in_flight_positive kind (m : Machine) i req k :
  inflight m !! i = Some (req, k) → request_kind req = kind → 0 < in_flight kind m.
Proof.
  intros Hi Hkind. unfold in_flight.
  assert (Hin : (req, k) ∈ filter (λ p : Request * Continuation, request_kind p.1 = kind)
                                  (inflight m)).
  { apply list_elem_of_filter. split; [exact Hkind|].
    apply list_elem_of_lookup. exists i. exact Hi. }
  destruct (filter _ (inflight m)); [inversion Hin | simpl; lia].
Qed.

Lemma serial_on_page f (m : Machine) :
  isUpdatingUser (f (page m)) = isUpdatingUser (page m) →
  isDeletingUser (f (page m)) = isDeletingUser (page m) →
  serial m → serial (on_page f m).
Proof.
  intros Hu Hd (Hpair & Hedit & Hdel). unfold serial, in_flight in *. simpl.
  rewrite Hu, Hd. auto.
Qed.

Lemma serial_done s (m : Machine) :
  isUpdatingUser s = isUpdatingUser (page m) →
  isDeletingUser s = isDeletingUser (page m) →
  serial m → serial (dispatch (Done s) m).
Proof.
  intros Hu Hd (Hpair & Hedit & Hdel). unfold serial, in_flight in *. simpl.
  rewrite Hu, Hd. auto.
Qed.

Lemma serial_await req k s (m : Machine) :
  request_kind req = continuation_kind k →
  tracks (in_flight KEdit m + (if decide (request_kind req = KEdit) then 1 else 0))
         (isUpdatingUser s) →
  tracks (in_flight KDelete m + (if decide (request_kind req = KDelete) then 1 else 0))
         (isDeletingUser s) →
  serial m → serial (dispatch (Await req k s) m).
Proof.
  intros Hkind Hedit Hdel (Hpair & _ & _). split; [|split].
  - simpl. apply Forall_app. split; [exact Hpair|]. apply Forall_singleton. exact Hkind.
  - rewrite in_flight_dispatch. exact Hedit.
  - rewrite in_flight_dispatch. exact Hdel.
Qed.

Lemma serial_step (m : Machine) e : serial m → serial (step m e).
Proof.
  intros Hinv. pose proof Hinv as (Hpair & Hedit & Hdel).
  destruct e as [|rnd|rnd|userId userName|field value| |id|i o rnd|dt]; cbn [step].
  - apply serial_await; [reflexivity | | | exact Hinv]; simpl;
      rewrite Nat.add_0_r; assumption.
  - unfold handleUpdateUser.
    destruct (userDetails (page m)) as [d|]; [|apply serial_done; auto].
    destruct (isUpdatingUser (page m)) eqn:Hflag; [apply serial_done; auto|].
    destruct (negb (nonempty (details_id d))); [apply serial_done; auto|].
    apply serial_await; [reflexivity | | | exact Hinv]; simpl.
    + destruct Hedit as [[-> _]|[_ Habs]]; [right; auto | congruence].
    + rewrite Nat.add_0_r. exact Hdel.
  - unfold handleDeleteUser.
    destruct (userDetails (page m)) as [d|]; [|apply serial_done; auto].
    destruct (isDeletingUser (page m)) eqn:Hflag; [apply serial_done; auto|].
    destruct (negb (nonempty (details_id d))); [apply serial_done; auto|].
    apply serial_await; [reflexivity | | | exact Hinv]; simpl.
    + rewrite Nat.add_0_r. exact Hedit.
    + destruct Hdel as [[-> _]|[_ Habs]]; [right; auto | congruence].
  - unfold handleFavorite.
    destruct (truthy (isFavoriting (page m))); [apply serial_done; auto|].
    apply serial_await; [reflexivity | | | exact Hinv]; simpl;
      rewrite Nat.add_0_r; assumption.
  - apply serial_on_page; auto.
  - apply serial_on_page; auto.
  - apply serial_on_page; auto.
  - destruct (inflight m !! i) as [[req k]|] eqn:Hi; [|exact Hinv].
    assert (Hkind : request_kind req = continuation_kind k).
    { rewrite Forall_forall in Hpair.
      apply (Hpair (req, k)). apply list_elem_of_lookup. exists i. exact Hi. }
    split; [|split].
    + simpl. apply Forall_forall. intros p Hp.
      rewrite Forall_forall in Hpair. apply Hpair.
      apply list_elem_of_lookup in Hp as [j Hj]. apply list_elem_of_lookup.
      destruct (decide (j < i)).
      * exists j. rewrite list_lookup_delete_lt in Hj by assumption. exact Hj.
      * exists (S j). rewrite list_lookup_delete_ge in Hj by lia. exact Hj.
    + rewrite (in_flight_settled KEdit m i req k _ Hi). simpl.
      rewrite resume_updating_flag, <- Hkind.
      destruct (decide (request_kind req = KEdit)) as [Hk|Hk].
      * pose proof (in_flight_positive KEdit m i req k Hi Hk).
        destruct Hedit as [[Hn _]|[Hn _]]; [lia|]. rewrite Hn. left. auto.
      * rewrite Nat.sub_0_r. exact Hedit.
    + rewrite (in_flight_settled KDelete m i req k _ Hi). simpl.
      rewrite resume_deleting_flag, <- Hkind.
      destruct (decide (request_kind req = KDelete)) as [Hk|Hk].
      * pose proof (in_flight_positive KDelete m i req k Hi Hk).
        destruct Hdel as [[Hn _]|[Hn _]]; [lia|]. rewrite Hn. left. auto.
      * rewrite Nat.sub_0_r. exact Hdel.
  - apply serial_on_page; auto.
Qed.

Lemma serial_act (x : Session) a : serial (machine x) → serial (machine (act x a)).
Proof.
  intros Hinv. destruct a as [e|userId|i o rnd]; simpl.
  - apply serial_step. exact Hinv.
  - apply serial_on_page; auto.
  - destruct (details_inflight x !! i); [|exact Hinv]. simpl.
    apply serial_on_page; [| |exact Hinv]; unfold resume_handleUserClick;
      destruct o as [msg|r]; try reflexivity;
      destruct (ok r); try reflexivity;
      destruct (body r) as [msg|[|message data]]; reflexivity.
Qed.

Lemma serial_play tr (x : Session) : serial (machine x) → serial (machine (play tr x)).
Proof.
  revert x. induction tr as [|a tr IH]; intros x Hx; [exact Hx|].
  simpl. apply IH. apply serial_act. exact Hx.
Qed.

Lemma serial_start : serial (machine start).
Proof. split; [constructor | split; left; auto]. Qed.

(** X4. From the page as first rendered, through every interleaving of
    row clicks, field edits, Update, Delete and favourite clicks, toast
    dismissals, elapsed time and answers arriving in any order: at most
    one edit request and at most one delete request are in flight,
    [isUpdatingUser] is set exactly while an edit request is in flight
    and [isDeletingUser] exactly while a delete request is, and an Update
    (Delete) click made meanwhile leaves the page and the network as
    they are. *)
Theorem edits_and_deletes_serialised (tr : list Action) :
  let m := machine (play tr start) in
  in_flight KEdit m ≤ 1 ∧
  in_flight KDelete m ≤ 1 ∧
  (isUpdatingUser (page m) = true ↔ in_flight KEdit m = 1) ∧
  (isDeletingUser (page m) = true ↔ in_flight KDelete m = 1) ∧
  (in_flight KEdit m = 1 → ∀ rnd, step m (ClickUpdate rnd) = m) ∧
  (in_flight KDelete m = 1 → ∀ rnd, step m (ClickDelete rnd) = m).
Proof.
  intros m.
  destruct (serial_play tr start serial_start) as (_ & Hedit & Hdel). fold m in Hedit, Hdel.
  assert (Hu : isUpdatingUser (page m) = true ↔ in_flight KEdit m = 1).
  { destruct Hedit as [[-> ->]|[-> ->]]; split; auto; discriminate. }
  assert (Hd : isDeletingUser (page m) = true ↔ in_flight KDelete m = 1).
  { destruct Hdel as [[-> ->]|[-> ->]]; split; auto; discriminate. }
  split; [destruct Hedit as [[-> _]|[-> _]]; lia|].
  split; [destruct Hdel as [[-> _]|[-> _]]; lia|].
  split; [exact Hu|]. split; [exact Hd|]. split.
  - intros Hone rnd. apply Hu in Hone. cbn [step]. unfold handleUpdateUser.
    rewrite Hone. destruct m as [s fl nt]. simpl. destruct (userDetails s); reflexivity.
  - intros Hone rnd. apply Hd in Hone. cbn [step]. unfold handleDeleteUser.
    rewrite Hone. destruct m as [s fl nt]. simpl. destruct (userDetails s); reflexivity.
Qed.

End UsersSerial.

(** ** The user list page: opening, editing, deleting *)

Section UsersFlows.
Import Users.

Lemma edits_and_deletes_serialised_witness :
  let ann := mkUser (Some "1") None (Some "Ann Lee") None None None None None None in
  let listed := Resolved (mkResponse 200 (inr (JObject None [ann]))) in
  let opened := Resolved (mkResponse 200 (inr (JObject None (mkDetails (Some ann) None ann)))) in
  let tr := [Act Mount; Act (Settle 0 listed "r0"); ClickRow "1";
             SettleDetails 0 opened "r1"; Act (ClickUpdate "r2")] in
  let m := machine (play tr start) in
  in_flight KEdit m = 1 ∧ step m (ClickUpdate "r3") = m.
Proof.
  intros ann listed opened tr m.
  assert (Hone : in_flight KEdit m = 1) by (vm_compute; reflexivity).
  split; [exact Hone|].
  destruct (edits_and_deletes_serialised tr) as (_ & _ & _ & _ & Hignored & _).
  apply Hignored. exact Hone.
Defined.

(** X5. Opening a row: the modal is open and the loading flag is back to
    false whatever comes back, and the list and the favourites are not
    touched. A 2xx JSON object fills the details with its [userData],
    else its [user], else the object itself, and pushes no toast. Anything
    else leaves the details null and pushes exactly one error toast; for
    a status outside 200-299 its text is the fixed "Failed to fetch user
    details", whatever the body says. *)
Theorem handleUserClick_outcome (userId rnd : string) (s : State) (o : Outcome Details) :
  let call := handleUserClick userId s in
  let s' := resume_handleUserClick o rnd call.2 in
  call.1 = GET_admin_user userId ∧
  isModalOpen s' = true ∧ isLoadingDetails s' = false ∧
  users s' = users s ∧ favoritedUsers s' = favoritedUsers s ∧
  (∀ r message data,
     o = Resolved r → ok r = true → body r = inr (JObject message data) →
     userDetails s' = Some (picked data) ∧ toasts s' = toasts s) ∧
  (match o with
   | Rejected _ => True
   | Resolved r => ok r = false ∨ (∃ msg, body r = inl msg) ∨ body r = inr JNull
   end →
   userDetails s' = None ∧
   ∃ text, toasts s' = toasts s ++ [Toasts.mkToast rnd text Toasts.error]) ∧
  (∀ r, o = Resolved r → ok r = false →
     toasts s' = toasts s ++ [Toasts.mkToast rnd "Failed to fetch user details" Toasts.error]).
Proof.
  intros call s'. subst call s'. cbn [handleUserClick fst snd].
  split; [reflexivity|].
  assert (Hframe : ∀ s0 : State,
            let s1 := resume_handleUserClick o rnd s0 in
            isModalOpen s1 = isModalOpen s0 ∧ isLoadingDetails s1 = false ∧
            users s1 = users s0 ∧ favoritedUsers s1 = favoritedUsers s0).
  { intros s0. unfold resume_handleUserClick.
    destruct o as [msg|r]; [repeat split|].
    destruct (ok r); [|repeat split].
    destruct (body r) as [msg|[|message data]]; repeat split. }
  destruct (Hframe (setUserDetails (λ _, None)
                      (setIsLoadingDetails true (setIsModalOpen true s))))
    as (Hm & Hl & Hu & Hf).
  split; [exact Hm|]. split; [exact Hl|]. split; [exact Hu|]. split; [exact Hf|].
  unfold resume_handleUserClick. split; [|split].
  - intros r message data -> Hok Hbody. rewrite Hok, Hbody. split; reflexivity.
  - intros Hfail. destruct o as [msg|r]; [split; [reflexivity | eexists; reflexivity]|].
    destruct (ok r) eqn:Hok; [|split; [reflexivity | eexists; reflexivity]].
    destruct Hfail as [Hno|[[msg Hbody]|Hbody]]; [discriminate| |];
      rewrite Hbody; (split; [reflexivity | eexists; reflexivity]).
  - intros r -> Hno. rewrite Hno. reflexivity.
Qed.

Lemma handleUserClick_outcome_witness :
  let ann := mkUser None (Some "65f0") (Some "Ann Lee") None None None None None None in
  let wrapper := mkUser None None None None None None None None None in
  let r := mkResponse 200 (inr (JObject (Some "ok") (mkDetails None (Some ann) wrapper))) in
  let s' := resume_handleUserClick (Resolved r) "r1" (handleUserClick "65f0" initial).2 in
  userDetails s' = Some ann ∧
  toasts (resume_handleUserClick (Resolved (mkResponse 404 (inr (JObject (Some "gone")
            (mkDetails None None wrapper))))) "r1" (handleUserClick "65f0" initial).2)
  = [Toasts.mkToast "r1" "Failed to fetch user details" Toasts.error].
Proof.
  intros ann wrapper r s'. split.
  - destruct (handleUserClick_outcome "65f0" "r1" initial (Resolved r))
      as (_ & _ & _ & _ & _ & Hfill & _).
    apply (Hfill r (Some "ok") (mkDetails None (Some ann) wrapper)); reflexivity.
  - destruct (handleUserClick_outcome "65f0" "r1" initial
                (Resolved (mkResponse 404 (inr (JObject (Some "gone")
                   (mkDetails None None wrapper))))))
      as (_ & _ & _ & _ & _ & _ & _ & Hfixed).
    apply (Hfixed _ eq_refl). reflexivity.
Defined.

Lemma details_id_with_field field value d :
  details_id (with_field field value d) = details_id d.
Proof. destruct field; reflexivity. Qed.

Lemma field_of_merged field d u :
  field_of field (merged d u) = js_or (field_of field d) (field_of field u).
Proof. destruct field; reflexivity. Qed.

Lemma field_of_with_field field value d :
  field_of field (with_field field value d) = Some value.
Proof. destruct field; reflexivity. Qed.

Lemma update_ok_users id d (r : Response (list User)) rnd s :
  ok r = true →
  users (resume (K_handleUpdateUser id d) (Resolved r) rnd s) = apply_edit id d (users s).
Proof. intros Hok. simpl. unfold resume_handleUpdateUser. rewrite Hok. reflexivity. Qed.

Lemma delete_ok_users id (r : Response (list User)) rnd s :
  ok r = true →
  users (resume (K_handleDeleteUser id) (Resolved r) rnd s) = apply_delete id (users s).
Proof. intros Hok. simpl. unfold resume_handleDeleteUser. rewrite Hok. reflexivity. Qed.

(** X6. The whole edit flow: a row is opened and its details [d] arrive,
    one field is typed over with [value], Update is clicked and the
    server accepts. The request carries [value] in that field, also when
    it is empty. In the list, every item with the identifier of [d] then
    shows [value] in that field if [value] is not empty and keeps its
    own value if it is, and every other item is as before. *)
Theorem edit_flow (userId rnd1 rnd2 rnd3 : string) (s : State)
    (r1 : Response Details) (r2 : Response (list User))
    (message : option string) (data : Details) (field : Field) (value : string) :
  isUpdatingUser s = false →
  ok r1 = true → body r1 = inr (JObject message data) →
  details_id (picked data) ≠ "" →
  ok r2 = true →
  let d := picked data in
  let s1 := resume_handleUserClick (Resolved r1) rnd1 (handleUserClick userId s).2 in
  let s2 := handleFieldChange field value s1 in
  let a := handleUpdateUser rnd2 s2 in
  let s3 := complete (Resolved r2) rnd3 a in
  (∃ sent, requests a = [POST_admin_edit_user sent] ∧ field_of field sent = Some value) ∧
  length (users s3) = length (users s) ∧
  ∀ i u, users s !! i = Some u →
    ∃ u', users s3 !! i = Some u' ∧
      (has_id (details_id d) u = false → u' = u) ∧
      (has_id (details_id d) u = true →
         field_of field u' = if nonempty value then Some value else field_of field u).
Proof.
  intros Hidle Hok1 Hbody Hid Hok2 d s1 s2 a s3.
  assert (Hs2 : userDetails s2 = Some (with_field field value d)).
  { subst s2 s1. simpl. unfold resume_handleUserClick. rewrite Hok1, Hbody. reflexivity. }
  assert (Hidle2 : isUpdatingUser s2 = false).
  { subst s2 s1. simpl. unfold resume_handleUserClick. rewrite Hok1, Hbody. exact Hidle. }
  assert (Hus2 : users s2 = users s).
  { subst s2 s1. simpl. unfold resume_handleUserClick. rewrite Hok1, Hbody. reflexivity. }
  clearbody s2. clear s1.
  assert (Hid2 : details_id (with_field field value d) ≠ "")
    by (rewrite details_id_with_field; exact Hid).
  assert (Hcall := handleUpdateUser_starts rnd2 s2 _ Hs2 Hidle2 Hid2).
  fold a in Hcall. rewrite details_id_with_field in Hcall.
  assert (Hus3 : users s3 = apply_edit (details_id d) (with_field field value d) (users s)).
  { subst s3. rewrite Hcall. unfold complete.
    rewrite update_ok_users by exact Hok2. simpl. rewrite Hus2. reflexivity. }
  split; [|split].
  - eexists. split; [rewrite Hcall; reflexivity|].
    destruct field; reflexivity.
  - rewrite Hus3. unfold apply_edit. apply length_fmap.
  - intros i u Hi. rewrite Hus3. eexists. split; [apply apply_edit_lookup; exact Hi|].
    split; intros Hu; rewrite Hu; [reflexivity|].
    rewrite field_of_merged, field_of_with_field. unfold js_or. simpl.
    destruct (nonempty value); reflexivity.
Qed.

Lemma edit_flow_witness :
  let ann := mkUser (Some "1") None (Some "Ann Lee") (Some "ann@shop.io") None None None
                    None None in
  let s := setUsers (λ _, [ann]) initial in
  let r1 := mkResponse 200 (inr (JObject None (mkDetails (Some ann) None ann))) in
  let r2 := mkResponse 200 (inr (JObject None [])) in
  let s1 := resume_handleUserClick (Resolved r1) "r1" (handleUserClick "1" s).2 in
  let s3 := complete (Resolved r2) "r3"
              (handleUpdateUser "r2" (handleFieldChange F_email "" s1)) in
  ∃ ann', users s3 !! 0 = Some ann' ∧ email ann' = Some "ann@shop.io".
Proof.
  intros ann s r1 r2 s1 s3.
  destruct (edit_flow "1" "r1" "r2" "r3" s r1 r2 None (mkDetails (Some ann) None ann)
              F_email "") as (_ & _ & Hitems);
    [reflexivity | reflexivity | reflexivity | discriminate | reflexivity |].
  destruct (Hitems 0 ann eq_refl) as (ann' & Hat & _ & Hkept).
  exists ann'. split; [exact Hat | apply (Hkept eq_refl)].
Defined.

Lemma has_id_merged id d u : has_id id (merged d u) = has_id id u.
Proof. reflexivity. Qed.

Lemma apply_edit_comm id1 id2 d1 d2 (l : list User) :
  id1 ≠ id2 →
  apply_edit id1 d1 (apply_edit id2 d2 l) = apply_edit id2 d2 (apply_edit id1 d1 l).
Proof.
  intros Hne. unfold apply_edit. rewrite <- !list_fmap_compose.
  apply list_fmap_ext. intros i u _. simpl.
  destruct (has_id id2 u) eqn:H2; destruct (has_id id1 u) eqn:H1;
    rewrite ?has_id_merged, ?H1, ?H2; try reflexivity.
  unfold has_id in H1, H2.
  apply bool_decide_eq_true in H1, H2. congruence.
Qed.

(** X7. Two accepted edits of users with different identifiers give the
    same list whichever answer arrives first. *)
Theorem edits_of_different_users_commute (id1 id2 rnd1 rnd2 : string) (d1 d2 : User)
    (r1 r2 : Response (list User)) (s : State) :
  id1 ≠ id2 → ok r1 = true → ok r2 = true →
  let k1 := K_handleUpdateUser id1 d1 in
  let k2 := K_handleUpdateUser id2 d2 in
  users (resume k1 (Resolved r1) rnd1 (resume k2 (Resolved r2) rnd2 s)) =
  users (resume k2 (Resolved r2) rnd2 (resume k1 (Resolved r1) rnd1 s)).
Proof.
  intros Hne Hok1 Hok2 k1 k2. subst k1 k2.
  rewrite !update_ok_users by assumption.
  apply apply_edit_comm. exact Hne.
Qed.

Lemma edits_of_different_users_commute_witness :
  let ann := mkUser (Some "1") None (Some "Ann Lee") None None None None None None in
  let bob := mkUser None (Some "2") (Some "Bob Ray") None None None None None None in
  let d1 := mkUser (Some "1") None (Some "Ann Li") None None None None None None in
  let d2 := mkUser None (Some "2") None (Some "bob@shop.io") None None None None None in
  let r := mkResponse 200 (inr (JObject None [])) in
  let s := setUsers (λ _, [ann; bob]) initial in
  users (resume (K_handleUpdateUser "1" d1) (Resolved r) "a"
           (resume (K_handleUpdateUser "2" d2) (Resolved r) "b" s)) =
  users (resume (K_handleUpdateUser "2" d2) (Resolved r) "b"
           (resume (K_handleUpdateUser "1" d1) (Resolved r) "a" s)).
Proof.
  intros ann bob d1 d2 r s.
  apply edits_of_different_users_commute; [discriminate | reflexivity | reflexivity].
Defined.

Lemma apply_delete_after_edit id d (l : list User) :
  apply_delete id (apply_edit id d l) = apply_delete id l.
Proof.
  induction l as [|u l IH]; [reflexivity|].
  unfold apply_delete, apply_edit in *. rewrite fmap_cons, !filter_cons.
  destruct (has_id id u) eqn:Hu.
  - rewrite has_id_merged, Hu. simpl. exact IH.
  - rewrite Hu. simpl. f_equal. exact IH.
Qed.

Lemma apply_edit_after_delete id d (l : list User) :
  apply_edit id d (apply_delete id l) = apply_delete id l.
Proof.
  unfold apply_edit. rewrite <- (list_fmap_id (apply_delete id l)) at 2.
  apply list_fmap_ext. intros i u Hi. simpl.
  assert (Hu : u ∈ apply_delete id l) by (apply list_elem_of_lookup; eauto).
  apply list_elem_of_filter in Hu as [Hu _]. rewrite Hu. reflexivity.
Qed.

(** X8. An accepted delete and an accepted edit of the same user end in
    the same list in either order of arrival, the list the delete alone
    gives: no item with that identifier is left, and an edit answer that
    comes after the delete does not bring the row back. *)
Theorem delete_wins_over_edit (id rnd1 rnd2 : string) (d : User)
    (r1 r2 : Response (list User)) (s : State) :
  ok r1 = true → ok r2 = true →
  let edit := resume (K_handleUpdateUser id d) (Resolved r1) rnd1 in
  let delete := resume (K_handleDeleteUser id) (Resolved r2) rnd2 in
  users (delete (edit s)) = users (delete s) ∧
  users (edit (delete s)) = users (delete s) ∧
  ∀ u, u ∈ users (delete s) → has_id id u = false.
Proof.
  intros Hok1 Hok2 edit delete. subst edit delete.
  rewrite !delete_ok_users, !update_ok_users, !delete_ok_users by assumption.
  split; [apply apply_delete_after_edit|].
  split; [apply apply_edit_after_delete|].
  intros u Hu. apply list_elem_of_filter in Hu as [Hu _]. exact Hu.
Qed.

Lemma delete_wins_over_edit_witness :
  let ann := mkUser (Some "1") None (Some "Ann Lee") None None None None None None in
  let bob := mkUser None (Some "2") (Some "Bob Ray") None None None None None None in
  let d := mkUser (Some "1") None (Some "Ann Li") None None None None None None in
  let r := mkResponse 200 (inr (JObject None [])) in
  let s := setUsers (λ _, [ann; bob]) initial in
  users (resume (K_handleUpdateUser "1" d) (Resolved r) "a"
           (resume (K_handleDeleteUser "1") (Resolved r) "b" s)) = [bob].
Proof.
  intros ann bob d r s.
  destruct (delete_wins_over_edit "1" "a" "b" d r r s) as (_ & Hlate & _);
    [reflexivity | reflexivity |].
  rewrite Hlate. vm_compute. reflexivity.
Defined.

End UsersFlows.

(** ** The user list page: what a finished call leaves behind *)

Section UsersOutcomes.
Import Users.

(** X9. Every [handleUpdateUser] request that comes back pushes exactly
    one toast, of kind success when the status is in 200-299 and of kind
    error otherwise (rejected [fetch] included). When it is an error the
    user list is what it was when the answer arrived. In no case are the
    favourites, the favourite slot, the loading flag, the delete flag or
    the delete confirmation touched. *)
Theorem handleUpdateUser_reports_once (id rnd : string) (d : User)
    (o : Outcome (list User)) (s : State) :
  let s' := resume (K_handleUpdateUser id d) o rnd s in
  (∃ text, toasts s' = toasts s ++
     [Toasts.mkToast rnd text (if succeeded o then Toasts.success else Toasts.error)]) ∧
  (succeeded o = false → users s' = users s) ∧
  favoritedUsers s' = favoritedUsers s ∧
  isFavoriting s' = isFavoriting s ∧
  isLoading s' = isLoading s ∧
  isDeletingUser s' = isDeletingUser s ∧
  showDeleteConfirm s' = showDeleteConfirm s.
Proof.
  simpl. unfold resume_handleUpdateUser.
  destruct o as [msg|r]; simpl.
  - repeat split. eexists. reflexivity.
  - destruct (ok r); simpl.
    + repeat split; [eexists; reflexivity | discriminate].
    + destruct (message_or_empty r); repeat split; eexists; reflexivity.
Qed.

(** X10. Every [handleDeleteUser] request that comes back pushes exactly
    one toast, success for a status in 200-299 and error otherwise, and
    ends with [isDeletingUser] false. After an error the list, the
    favourites, the open details, the modal and the confirmation dialog
    are what they were when the answer arrived, so the delete can be
    tried again; after a success the modal and the confirmation are
    closed and the details are null. *)
Theorem handleDeleteUser_reports_once (id rnd : string)
    (o : Outcome (list User)) (s : State) :
  let s' := resume (K_handleDeleteUser id) o rnd s in
  (∃ text, toasts s' = toasts s ++
     [Toasts.mkToast rnd text (if succeeded o then Toasts.success else Toasts.error)]) ∧
  isDeletingUser s' = false ∧
  (succeeded o = false →
     users s' = users s ∧ favoritedUsers s' = favoritedUsers s ∧
     userDetails s' = userDetails s ∧ isModalOpen s' = isModalOpen s ∧
     showDeleteConfirm s' = showDeleteConfirm s) ∧
  (succeeded o = true →
     userDetails s' = None ∧ isModalOpen s' = false ∧ showDeleteConfirm s' = false).
Proof.
  simpl. unfold resume_handleDeleteUser.
  destruct o as [msg|r]; simpl.
  - repeat split; try discriminate. eexists. reflexivity.
  - destruct (ok r); simpl.
    + repeat split; try discriminate. eexists. reflexivity.
    + destruct (message_or_empty r); repeat split; try discriminate;
        eexists; reflexivity.
Qed.

(** X11. A favourite toggle made with the slot free always ends with the
    slot free again and exactly one toast pushed, so the next favourite
    click, on any row, goes to the network. Unless the answer has a
    status in 200-299 the favourites set is what it was. *)
Theorem handleFavorite_can_retry (userId userName rnd next nextName : string)
    (o : Outcome (list User)) (s : State) :
  truthy (isFavoriting s) = false →
  let s' := complete o rnd (handleFavorite userId userName s) in
  isFavoriting s' = None ∧
  (∃ text kind, toasts s' = toasts s ++ [Toasts.mkToast rnd text kind]) ∧
  (succeeded o = false → favoritedUsers s' = favoritedUsers s) ∧
  users s' = users s ∧
  requests (handleFavorite next nextName s') = [POST_admin_favourites next].
Proof.
  intros Hfree s'.
  assert (Hslot : isFavoriting s' = None).
  { subst s'. unfold handleFavorite. rewrite Hfree. reflexivity. }
  split; [exact Hslot|].
  split; [|split; [|split]].
  - subst s'. unfold handleFavorite. rewrite Hfree. simpl. unfold resume_handleFavorite.
    destruct o as [msg|r]; simpl; [eexists; eexists; reflexivity|].
    destruct (ok r); simpl.
    + destruct (body r) as [msg|[|message userList]]; eexists; eexists; reflexivity.
    + destruct (message_or_empty r); eexists; eexists; reflexivity.
  - subst s'. unfold handleFavorite. rewrite Hfree. simpl. unfold resume_handleFavorite.
    destruct o as [msg|r]; simpl; [reflexivity|].
    destruct (ok r); simpl; [discriminate|].
    destruct (message_or_empty r); reflexivity.
  - subst s'. unfold handleFavorite. rewrite Hfree. simpl. unfold resume_handleFavorite.
    destruct o as [msg|r]; simpl; [reflexivity|].
    destruct (ok r); simpl.
    + destruct (body r) as [msg|[|message userList]]; reflexivity.
    + destruct (message_or_empty r); reflexivity.
  - unfold handleFavorite. rewrite Hslot. reflexivity.
Qed.

Lemma handleFavorite_can_retry_witness :
  let s := setFavoritedUsers (λ _, {["7"]}) initial in
  let s' := complete (Resolved (mkResponse 500 (inl "Unexpected token <"))) "a1"
              (handleFavorite "1" "Ann Lee" s) in
  favoritedUsers s' = {["7"]} ∧
  requests (handleFavorite "2" "Bob Ray" s') = [POST_admin_favourites "2"].
Proof.
  intros s s'.
  destruct (handleFavorite_can_retry "1" "Ann Lee" "a1" "2" "Bob Ray"
              (Resolved (mkResponse 500 (inl "Unexpected token <"))) s)
    as (_ & _ & Hkept & _ & Hnext); [reflexivity|].
  split; [apply Hkept; reflexivity | exact Hnext].
Defined.

(** X12. What the favourite toggle does with a 2xx answer depends on the
    body alone: a JSON object flips the membership of the identifier and
    pushes a success toast; a JSON [null] flips the membership all the
    same and pushes an error toast; a body that is not JSON leaves the
    set alone and pushes an error toast with the parser's message. *)
Theorem handleFavorite_by_body (userId userName rnd : string)
    (r : Response (list User)) (s : State) :
  truthy (isFavoriting s) = false →
  ok r = true →
  let s' := complete (Resolved r) rnd (handleFavorite userId userName s) in
  match body r with
  | inr (JObject message _) =>
      favoritedUsers s' = toggle userId (favoritedUsers s) ∧
      toasts s' = toasts s ++
        [Toasts.mkToast rnd
           (or_else message (userName +:+ " added to favorites successfully!"))
           Toasts.success]
  | inr JNull =>
      favoritedUsers s' = toggle userId (favoritedUsers s) ∧
      ∃ text, toasts s' = toasts s ++ [Toasts.mkToast rnd text Toasts.error]
  | inl msg =>
      favoritedUsers s' = favoritedUsers s ∧
      toasts s' = toasts s ++ [Toasts.mkToast rnd msg Toasts.error]
  end.
Proof.
  intros Hfree Hok s'. subst s'. unfold handleFavorite. rewrite Hfree. simpl.
  unfold resume_handleFavorite. rewrite Hok. simpl.
  destruct (body r) as [msg|[|message userList]]; simpl; split; try reflexivity.
  eexists. reflexivity.
Qed.

Lemma handleFavorite_by_body_witness :
  let s' := complete (Resolved (mkResponse 200 (inr JNull))) "a1"
              (handleFavorite "1" "Ann Lee" initial) in
  ("1" ∈ favoritedUsers s') ∧ Toasts.toast_type <$> toasts s' = [Toasts.error].
Proof.
  intros s'.
  pose proof (handleFavorite_by_body "1" "Ann Lee" "a1" (mkResponse 200 (inr JNull))
                initial eq_refl eq_refl) as [Hflip [text Htoast]].
  fold s' in Hflip, Htoast. split.
  - rewrite Hflip. apply toggle_flips. apply not_elem_of_empty.
  - rewrite Htoast. reflexivity.
Defined.

(** X13. The [id] the edit request carries, [{ id, ...userDetails }]: it
    is the identifier the handler resolved, except when the details hold
    an empty [id] beside a usable [_id]; then the check passes on [_id]
    and the request goes out with the empty [id]. *)
Theorem edit_payload_id (rnd : string) (s : State) (d : User) :
  userDetails s = Some d → isUpdatingUser s = false → details_id d ≠ "" →
  ∃ sent, requests (handleUpdateUser rnd s) = [POST_admin_edit_user sent] ∧
    User__id sent = User__id d ∧
    (User_id d ≠ Some "" → User_id sent = Some (details_id d)) ∧
    (User_id d = Some "" → User_id sent = Some "" ∧ User__id d = Some (details_id d)).
Proof.
  intros Hd Hidle Hid.
  rewrite (handleUpdateUser_never_checks_email rnd s d Hd Hidle Hid).
  eexists. split; [reflexivity|]. split; [reflexivity|].
  unfold details_id, js_or in *. simpl.
  destruct (User_id d) as [x|] eqn:Hx; simpl in *.
  - destruct (nonempty x) eqn:Hne; simpl in *.
    + rewrite Hne. split; [reflexivity|]. intros [= ->]. discriminate.
    + apply negb_false_iff, String.eqb_eq in Hne as ->.
      split; [congruence|]. intros _. split; [reflexivity|].
      destruct (User__id d) as [y|]; simpl in *; [|congruence].
      destruct (nonempty y); [reflexivity | congruence].
  - split; [|discriminate]. intros _.
    destruct (User__id d) as [y|]; simpl in *; [|congruence].
    destruct (nonempty y); [reflexivity | congruence].
Qed.

Lemma edit_payload_id_witness :
  let d := mkUser (Some "") (Some "65f0") (Some "Ann Lee") None None None None None None in
  let s := setUserDetails (λ _, Some d) initial in
  requests (handleUpdateUser "r" s) = [POST_admin_edit_user d].
Proof.
  intros d s.
  destruct (edit_payload_id "r" s d) as (sent & Hreq & _);
    [reflexivity | reflexivity | discriminate |].
  rewrite Hreq. vm_compute in Hreq. injection Hreq as <-. reflexivity.
Defined.

End UsersOutcomes.

(** ** The product list page *)

Section ProductsMore.
Import Products.

Lemma truthy_as_string v : truthy v = true → v = Some (as_string v) ∧ as_string v ≠ "".
Proof.
  destruct v as [x|]; [|discriminate]. simpl. intros Hx.
  split; [reflexivity | apply nonempty_true; exact Hx].
Qed.

Lemma js_or_some x old : nonempty x = true → js_or (Some x) old = Some x.
Proof. intros Hx. unfold js_or. simpl. rewrite Hx. reflexivity. Qed.

Lemma photo_rule preview details_photo own :
  js_or (js_or (Some preview) details_photo) own =
  if nonempty preview then Some preview else js_or details_photo own.
Proof.
  unfold js_or at 2. simpl. destruct (nonempty preview) eqn:Hp; [|reflexivity].
  apply js_or_some. exact Hp.
Qed.

Lemma handleUpdateProduct_cases (URL_parses : string → bool) (rnd : string) (s : State) :
  match handleUpdateProduct URL_parses rnd s with
  | Await formData id d preview s1 =>
      productDetails s = Some d ∧ isUpdatingProduct s = false ∧
      id = details_id d ∧ form_id formData = id ∧ id ≠ "" ∧
      name d = Some (form_name formData) ∧ form_name formData ≠ "" ∧
      link d = Some (form_link formData) ∧ form_link formData ≠ "" ∧
      email d = Some (form_email formData) ∧ form_email formData ≠ "" ∧
      description d = Some (form_description formData) ∧
      form_description formData ≠ "" ∧
      emailRegex_test (form_email formData) = true ∧
      URL_parses (form_link formData) = true ∧
      preview = editPhotoPreview s ∧
      s1 = setIsUpdatingProduct true s
  | Done s' => s' = s ∨ ∃ text, s' = showToast rnd text Toasts.error s
  end.
Proof.
  unfold handleUpdateProduct.
  destruct (productDetails s) as [d|]; [|left; reflexivity].
  destruct (isUpdatingProduct s); [left; reflexivity|].
  destruct (nonempty (details_id d)) eqn:Hid; simpl; [|right; eexists; reflexivity].
  destruct (truthy (name d)) eqn:Hname; simpl; [|right; eexists; reflexivity].
  destruct (truthy (link d)) eqn:Hlink; simpl; [|right; eexists; reflexivity].
  destruct (truthy (email d)) eqn:Hemail; simpl; [|right; eexists; reflexivity].
  destruct (truthy (description d)) eqn:Hdesc; simpl; [|right; eexists; reflexivity].
  destruct (emailRegex_test (as_string (email d))) eqn:Hre; simpl;
    [|right; eexists; reflexivity].
  destruct (URL_parses (as_string (link d))) eqn:Hurl; simpl;
    [|right; eexists; reflexivity].
  apply nonempty_true in Hid.
  destruct (truthy_as_string _ Hname) as [Hn1 Hn2].
  destruct (truthy_as_string _ Hlink) as [Hl1 Hl2].
  destruct (truthy_as_string _ Hemail) as [He1 He2].
  destruct (truthy_as_string _ Hdesc) as [Hd1 Hd2].
  repeat split; assumption.
Qed.

(** X14. [handleUpdateProduct] goes to the network only with details that
    have an identifier, a name, a link, an e-mail and a description, all
    non-empty, an e-mail the pattern accepts and a link that parses as a
    URL, and then sends exactly these values and sets the updating flag.
    In every other case it either does nothing at all or pushes exactly
    one error toast and changes nothing else. *)
Theorem handleUpdateProduct_gate (URL_parses : string → bool) (rnd : string) (s : State) :
  match handleUpdateProduct URL_parses rnd s with
  | Await formData id d preview s1 =>
      productDetails s = Some d ∧ isUpdatingProduct s = false ∧
      id = details_id d ∧ form_id formData = id ∧ id ≠ "" ∧
      name d = Some (form_name formData) ∧ form_name formData ≠ "" ∧
      link d = Some (form_link formData) ∧ form_link formData ≠ "" ∧
      email d = Some (form_email formData) ∧ form_email formData ≠ "" ∧
      description d = Some (form_description formData) ∧
      form_description formData ≠ "" ∧
      emailRegex_test (form_email formData) = true ∧
      URL_parses (form_link formData) = true ∧
      preview = editPhotoPreview s ∧
      s1 = setIsUpdatingProduct true s
  | Done s' => s' = s ∨ ∃ text, s' = showToast rnd text Toasts.error s
  end.
Proof. apply handleUpdateProduct_cases. Qed.

(** X15. When a product edit is accepted, every listed product with the
    edited identifier shows exactly what was sent: name, link, e-mail and
    description of the request (the fallback to the old value cannot
    occur for them); its photo is the preview if there is one, else the
    photo of the details, else its own. Products with another identifier
    are as they were. *)
Theorem handleUpdateProduct_shows_what_was_sent (URL_parses : string → bool)
    (rnd rnd' : string) (s s2 : State)
    (formData : FormData) (id preview : string) (d : Product) (s1 : State)
    (r : Response unit) :
  handleUpdateProduct URL_parses rnd s = Await formData id d preview s1 →
  ok r = true →
  let s' := resume_handleUpdateProduct id d preview (Resolved r) rnd' s2 in
  length (products s') = length (products s2) ∧
  ∀ i p, products s2 !! i = Some p →
    ∃ p', products s' !! i = Some p' ∧
      (has_id id p = false → p' = p) ∧
      (has_id id p = true →
         name p' = Some (form_name formData) ∧
         link p' = Some (form_link formData) ∧
         email p' = Some (form_email formData) ∧
         description p' = Some (form_description formData) ∧
         photo p' = (if nonempty preview then Some preview
                     else js_or (photo d) (photo p)) ∧
         Product_id p' = Product_id p ∧ Product__id p' = Product__id p ∧
         createdAt p' = createdAt p ∧ updatedAt p' = updatedAt p).
Proof.
  intros Hcall Hok s'.
  pose proof (handleUpdateProduct_cases URL_parses rnd s) as Hgate. rewrite Hcall in Hgate.
  destruct Hgate as (_ & _ & _ & _ & _ & Hn & Hn' & Hl & Hl' & He & He' & Hd & Hd' & _).
  assert (Hps : products s' = apply_edit id preview d (products s2)).
  { subst s'. unfold resume_handleUpdateProduct. rewrite Hok. reflexivity. }
  rewrite Hps. split; [unfold apply_edit; apply length_fmap|].
  intros i p Hi.
  destruct (handleUpdateProduct_merge id preview d (products s2) i p Hi)
    as (p' & Hat & Hother & Hsame).
  exists p'. split; [exact Hat|]. split; [exact Hother|].
  intros Hp. destruct (Hsame Hp) as (Hi1 & Hi2 & Hpn & Hpl & Hpe & Hpd & Hpp & Hc & Hu).
  apply nonempty_true in Hn', Hl', He', Hd'.
  rewrite Hpn, Hpl, Hpe, Hpd, Hpp, Hn, Hl, He, Hd, photo_rule.
  rewrite !js_or_some by assumption.
  repeat split; assumption.
Qed.

(** X16. Every [handleUpdateProduct] request that comes back pushes
    exactly one toast, success for a status in 200-299 and error
    otherwise, and ends with [isUpdatingProduct] false. After an error
    the list, the details being edited, the open modal and the chosen
    photo with its preview are what they were when the answer arrived,
    so Update can be clicked again; after a success the modal is closed,
    the details are null and the chosen photo and its preview are
    reset. *)
Theorem handleUpdateProduct_reports_once (id preview rnd : string) (d : Product)
    (o : Outcome unit) (s : State) :
  let s' := resume_handleUpdateProduct id d preview o rnd s in
  (∃ text, toasts s' = toasts s ++
     [Toasts.mkToast rnd text
        (if Users.succeeded o then Toasts.success else Toasts.error)]) ∧
  isUpdatingProduct s' = false ∧
  (Users.succeeded o = false →
     products s' = products s ∧ productDetails s' = productDetails s ∧
     isEditModalOpen s' = isEditModalOpen s ∧
     editPhoto s' = editPhoto s ∧ editPhotoPreview s' = editPhotoPreview s) ∧
  (Users.succeeded o = true →
     productDetails s' = None ∧ isEditModalOpen s' = false ∧
     editPhoto s' = None ∧ editPhotoPreview s' = "").
Proof.
  simpl. unfold resume_handleUpdateProduct.
  destruct o as [msg|r]; simpl.
  - repeat split; try discriminate. eexists. reflexivity.
  - destruct (ok r); simpl.
    + repeat split; try discriminate. eexists. reflexivity.
    + destruct (message_or_empty r); repeat split; try discriminate;
        eexists; reflexivity.
Qed.

(** X17. Choosing a photo in the edit modal: the file is taken (stored
    as the photo to upload and handed to the reader) exactly when its
    type is image/jpeg, image/jpg or image/png and its size is at most
    5242880 bytes. A file that is not taken pushes exactly one error
    toast and leaves the photo chosen before, and its preview, in
    place. *)
Theorem handleEditPhotoChange_accepts (rnd : string) (file : File) (s : State) :
  let after := handleEditPhotoChange rnd (Some file) s in
  (after.2 = Some file ↔
     (file_type file = "image/jpeg" ∨ file_type file = "image/jpg" ∨
      file_type file = "image/png") ∧ (file_size file ≤ 5242880)%N) ∧
  (after.2 = Some file →
     editPhoto after.1 = Some (file_name file) ∧ toasts after.1 = toasts s) ∧
  (after.2 ≠ Some file →
     after.2 = None ∧
     editPhoto after.1 = editPhoto s ∧ editPhotoPreview after.1 = editPhotoPreview s ∧
     ∃ text, toasts after.1 = toasts s ++ [Toasts.mkToast rnd text Toasts.error]).
Proof.
  simpl. unfold handleEditPhotoChange.
  assert (Htypes : file_type file ∈ validTypes ↔
            file_type file = "image/jpeg" ∨ file_type file = "image/jpg" ∨
            file_type file = "image/png").
  { unfold validTypes. rewrite !elem_of_cons, elem_of_nil. tauto. }
  assert (Hmax : maxSize = 5242880%N) by reflexivity.
  destruct (bool_decide (file_type file ∈ validTypes)) eqn:Htype; simpl.
  - apply bool_decide_eq_true in Htype.
    destruct (bool_decide (maxSize < file_size file)%N) eqn:Hsize; simpl.
    + apply bool_decide_eq_true in Hsize.
      split; [split; [discriminate | intros [_ Hle]; lia]|].
      split; [discriminate|]. intros _. repeat split. eexists. reflexivity.
    + apply bool_decide_eq_false in Hsize.
      split; [split; [intros _; split; [tauto | lia] | reflexivity]|].
      split; [intros _; split; reflexivity | congruence].
  - apply bool_decide_eq_false in Htype.
    split; [split; [discriminate | tauto]|].
    split; [discriminate|]. intros _. repeat split. eexists. reflexivity.
Qed.

(** X18. Loading the product list: a 2xx JSON object makes the list the
    array under [productData] if there is one, else the one under
    [products], else the one under [data], else the empty list; an empty
    array under an earlier key is taken as it is. Any other answer leaves
    the list as it was and pushes exactly one error toast. The loading
    flag is false at the end in every case. *)
Theorem fetchProducts_outcome (rnd : string) (p : Page) (o : Outcome ListBody) :
  let p' := resume_fetchProducts o rnd (fetchProducts p) in
  isLoading p' = false ∧
  (∀ r message data,
     o = Resolved r → ok r = true → body r = inr (JObject message data) →
     toasts (cells p') = toasts (cells p) ∧
     (∀ l, body_productData data = Some l → products (cells p') = l) ∧
     (∀ l, body_productData data = None → body_products data = Some l →
           products (cells p') = l) ∧
     (∀ l, body_productData data = None → body_products data = None →
           body_data data = Some l → products (cells p') = l) ∧
     (body_productData data = None → body_products data = None →
      body_data data = None → products (cells p') = [])) ∧
  (match o with
   | Rejected _ => True
   | Resolved r => ok r = false ∨ (∃ msg, body r = inl msg) ∨ body r = inr JNull
   end →
   products (cells p') = products (cells p) ∧
   ∃ text, toasts (cells p') = toasts (cells p) ++ [Toasts.mkToast rnd text Toasts.error]).
Proof.
  simpl. unfold resume_fetchProducts. split; [|split].
  - destruct o as [msg|r]; [reflexivity|].
    destruct (ok r); [|reflexivity].
    destruct (body r) as [msg|[|message data]]; reflexivity.
  - intros r message data -> Hok Hbody. rewrite Hok, Hbody. simpl.
    unfold listed. split; [reflexivity|].
    split; [intros l ->; reflexivity|].
    split; [intros l -> ->; reflexivity|].
    split; [intros l -> -> ->; reflexivity | intros -> -> ->; reflexivity].
  - intros Hfail. destruct o as [msg|r]; [split; [reflexivity | eexists; reflexivity]|].
    destruct (ok r) eqn:Hok; [|split; [reflexivity | eexists; reflexivity]].
    destruct Hfail as [Hno|[[msg Hbody]|Hbody]]; [discriminate| |];
      rewrite Hbody; (split; [reflexivity | eexists; reflexivity]).
Qed.

(** X19. Opening a product whose details carry a photo and saving it
    again without choosing a file: the edit modal shows that photo as
    preview, and whatever request [handleUpdateProduct] then makes names
    the same photo as the existing one and carries the details as they
    arrived. *)
Theorem reopened_product_keeps_photo (URL_parses : string → bool)
    (productId rnd1 rnd2 url : string) (p : Page)
    (r : Response DetailBody) (message : option string) (data : DetailBody) :
  ok r = true → body r = inr (JObject message data) →
  photo (picked data) = Some url → url ≠ "" →
  let p1 := resume_handleEditClick (Resolved r) rnd1 (handleEditClick productId p).2 in
  productDetails (cells p1) = Some (picked data) ∧
  editPhoto (cells p1) = None ∧ editPhotoPreview (cells p1) = url ∧
  isEditModalOpen (cells p1) = true ∧ isLoadingProduct p1 = false ∧
  ∀ formData id d preview s1,
    handleUpdateProduct URL_parses rnd2 (cells p1) = Await formData id d preview s1 →
    form_photo formData = Some (Existing url) ∧ preview = url ∧ d = picked data.
Proof.
  intros Hok Hbody Hphoto Hurl p1.
  assert (Hp1 : cells p1 =
            setEditPhotoPreview url
              (setProductDetails (λ _, Some (picked data))
                 (setEditPhotoPreview "" (setEditPhoto None
                    (setProductDetails (λ _, None) (setIsEditModalOpen true (cells p))))))).
  { subst p1. unfold handleEditClick, resume_handleEditClick. cbn [snd].
    rewrite Hok, Hbody. cbn [negb]. rewrite Hphoto. cbn [truthy as_string default].
    apply nonempty_true in Hurl. rewrite Hurl. reflexivity. }
  assert (Hl : isLoadingProduct p1 = false).
  { subst p1. unfold handleEditClick, resume_handleEditClick. cbn [snd].
    rewrite Hok, Hbody. cbn [negb].
    destruct (truthy (photo (picked data))); reflexivity. }
  clearbody p1. rewrite Hp1.
  split; [reflexivity|]. split; [reflexivity|]. split; [reflexivity|].
  split; [reflexivity|]. split; [exact Hl|].
  intros formData id d preview s1 Hcall.
  unfold handleUpdateProduct in Hcall. simpl in Hcall.
  destruct (isUpdatingProduct (cells p)); [discriminate|].
  destruct (negb (nonempty (details_id (picked data)))); [discriminate|].
  destruct (_ || _); [discriminate|].
  destruct (negb (emailRegex_test _)); [discriminate|].
  destruct (negb (URL_parses _)); [discriminate|].
  rewrite Hphoto in Hcall. simpl in Hcall.
  apply nonempty_true in Hurl. rewrite Hurl in Hcall.
  injection Hcall as <- <- <- <- <-. repeat split.
Qed.

End ProductsMore.

Lemma handleUpdateProduct_shows_what_was_sent_witness :
  let lamp := Products.mkProduct (Some "1") None (Some "Lamp") (Some "https://shop.io/lamp")
                (Some "sales@shop.io") (Some "uploads/lamp.png") (Some "A lamp")
                None None in
  let d := Products.mkProduct (Some "1") None (Some "Desk lamp")
                (Some "https://shop.io/lamp") (Some "sales@shop.io")
                (Some "uploads/lamp.png") (Some "A lamp") None None in
  let s := Products.mkState [lamp] Toasts.empty_queue true (Some d) false None "" in
  let fd := Products.mkFormData "1" "Desk lamp" "https://shop.io/lamp" "sales@shop.io"
              "A lamp" (Some (Products.Existing "uploads/lamp.png")) in
  let s' := Products.resume_handleUpdateProduct "1" d ""
              (Resolved (mkResponse 200 (inl "not json"))) "t1" s in
  ∃ lamp', Products.products s' !! 0 = Some lamp' ∧
           Products.name lamp' = Some "Desk lamp" ∧
           Products.photo lamp' = Some "uploads/lamp.png".
Proof.
  intros lamp d s fd s'.
  destruct (handleUpdateProduct_shows_what_was_sent (λ _, true) "t0" "t1" s s fd "1" "" d
              (Products.setIsUpdatingProduct true s) (mkResponse 200 (inl "not json")))
    as [_ Hitems]; [reflexivity | reflexivity |].
  destruct (Hitems 0 lamp eq_refl) as (lamp' & Hat & _ & Hsame).
  destruct (Hsame eq_refl) as (Hname & _ & _ & _ & Hphoto & _).
  exists lamp'. split; [exact Hat|]. split; [exact Hname | exact Hphoto].
Defined.

Lemma handleEditPhotoChange_accepts_witness :
  let file := mkFile "lamp.png" "image/png" 5242880%N in
  let after := Products.handleEditPhotoChange "t0" (Some file)
                 (Products.cells Products.initial) in
  Products.editPhoto after.1 = Some "lamp.png".
Proof.
  intros file after.
  destruct (handleEditPhotoChange_accepts "t0" file (Products.cells Products.initial))
    as ([_ Htaken] & Hstored & _).
  apply Hstored. apply Htaken. split; [right; right; reflexivity | simpl; lia].
Defined.

Lemma fetchProducts_outcome_witness :
  let lamp := Products.mkProduct (Some "1") None (Some "Lamp") None None None None
                None None in
  let data := Products.mkListBody (Some []) (Some [lamp]) None in
  let r := mkResponse 200 (inr (JObject None data)) in
  Products.products (Products.cells
    (Products.resume_fetchProducts (Resolved r) "t0"
       (Products.fetchProducts Products.initial))) = [].
Proof.
  intros lamp data r.
  destruct (fetchProducts_outcome "t0" Products.initial (Resolved r)) as (_ & Hload & _).
  destruct (Hload r None data eq_refl eq_refl eq_refl) as (_ & Hfirst & _).
  apply Hfirst. reflexivity.
Defined.

Lemma reopened_product_keeps_photo_witness :
  let lamp := Products.mkProduct (Some "1") None (Some "Lamp") (Some "https://shop.io/lamp")
                (Some "sales@shop.io") (Some "uploads/lamp.png") (Some "A lamp")
                None None in
  let r := mkResponse 200 (inr (JObject None (Products.mkDetailBody (Some lamp) None lamp))) in
  let p1 := Products.resume_handleEditClick (Resolved r) "t1"
              (Products.handleEditClick "1" Products.initial).2 in
  Products.editPhotoPreview (Products.cells p1) = "uploads/lamp.png" ∧
  Products.requests (Products.handleUpdateProduct (λ _, true) "t2" (Products.cells p1))
  = [Products.mkFormData "1" "Lamp" "https://shop.io/lamp" "sales@shop.io" "A lamp"
       (Some (Products.Existing "uploads/lamp.png"))].
Proof.
  intros lamp r p1.
  destruct (reopened_product_keeps_photo (λ _, true) "1" "t1" "t2" "uploads/lamp.png"
              Products.initial r None (Products.mkDetailBody (Some lamp) None lamp))
    as (_ & _ & Hpreview & _);
    [reflexivity | reflexivity | reflexivity | discriminate |].
  split; [exact Hpreview | vm_compute; reflexivity].
Defined.

(** ** The add-product page *)

Section AddProductMore.
Import AddProduct.

(** X20. Choosing a photo on the add-product page: the file becomes the
    photo of the form, and is handed to the reader, exactly when its type
    is image/jpeg, image/jpg or image/png and its size is at most
    5242880 bytes. A file that is not taken pushes exactly one error
    toast and leaves the form, with the photo chosen before and its
    preview, as it was. *)
Theorem handlePhotoChange_accepts (rnd : string) (file : File) (x : Form) :
  let after := handlePhotoChange rnd (Some file) x in
  (after.2 = Some file ↔
     (file_type file = "image/jpeg" ∨ file_type file = "image/jpg" ∨
      file_type file = "image/png") ∧ (file_size file ≤ 5242880)%N) ∧
  (after.2 = Some file →
     photo (fields after.1) = Some (file_name file) ∧
     Toasts.toasts (queue (fields after.1)) = Toasts.toasts (queue (fields x))) ∧
  (after.2 ≠ Some file →
     after.2 = None ∧
     photo (fields after.1) = photo (fields x) ∧ photoPreview after.1 = photoPreview x ∧
     ∃ text, Toasts.toasts (queue (fields after.1)) =
             Toasts.toasts (queue (fields x)) ++ [Toasts.mkToast rnd text Toasts.error]).
Proof.
  simpl. unfold handlePhotoChange.
  assert (Htypes : file_type file ∈ validTypes ↔
            file_type file = "image/jpeg" ∨ file_type file = "image/jpg" ∨
            file_type file = "image/png").
  { unfold validTypes. rewrite !elem_of_cons, elem_of_nil. tauto. }
  assert (Hmax : maxSize = 5242880%N) by reflexivity.
  destruct (bool_decide (file_type file ∈ validTypes)) eqn:Htype; simpl.
  - apply bool_decide_eq_true in Htype.
    destruct (bool_decide (maxSize < file_size file)%N) eqn:Hsize; simpl.
    + apply bool_decide_eq_true in Hsize.
      split; [split; [discriminate | intros [_ Hle]; lia]|].
      split; [discriminate|]. intros _. repeat split. eexists. reflexivity.
    + apply bool_decide_eq_false in Hsize.
      split; [split; [intros _; split; [tauto | lia] | reflexivity]|].
      split; [intros _; split; reflexivity | congruence].
  - apply bool_decide_eq_false in Htype.
    split; [split; [discriminate | tauto]|].
    split; [discriminate|]. intros _. repeat split. eexists. reflexivity.
Qed.

(** X21. [handleSubmit] goes on to the file read and the network only
    when name, link, e-mail and description are non-empty, a photo is
    chosen, the e-mail matches the pattern and the link parses as a URL;
    it then sets the loading flag and nothing else. Otherwise it returns
    after pushing exactly one error toast, the form being as typed. *)
Theorem handleSubmit_gate (URL_parses : string → bool) (rnd : string) (s : State) :
  match handleSubmit URL_parses rnd s with
  | Submitting s' =>
      s' = setIsLoading true s ∧
      name s ≠ "" ∧ link s ≠ "" ∧ email s ≠ "" ∧ is_Some (photo s) ∧ description s ≠ "" ∧
      emailRegex_test (email s) = true ∧ URL_parses (link s) = true
  | Returned s' => ∃ text, s' = showToast rnd text Toasts.error s
  end.
Proof.
  unfold handleSubmit.
  destruct (nonempty (name s)) eqn:Hn; simpl; [|eexists; reflexivity].
  destruct (nonempty (link s)) eqn:Hl; simpl; [|eexists; reflexivity].
  destruct (nonempty (email s)) eqn:He; simpl; [|eexists; reflexivity].
  destruct (bool_decide (is_Some (photo s))) eqn:Hp; simpl; [|eexists; reflexivity].
  destruct (nonempty (description s)) eqn:Hd; simpl; [|eexists; reflexivity].
  destruct (emailRegex_test (email s)) eqn:Hre; simpl; [|eexists; reflexivity].
  destruct (URL_parses (link s)) eqn:Hurl; simpl; [|eexists; reflexivity].
  apply bool_decide_eq_true in Hp. apply nonempty_true in Hn, Hl, He, Hd.
  repeat split; assumption.
Qed.

(** X22. A submission that got past the checks always ends with the
    loading flag false and exactly one toast pushed. It is a success
    toast, and every field of the form with the photo and its preview is
    cleared, exactly when the file was read, the status is in 200-299 and
    the body is a JSON object. In every other case (the read failed, the
    [fetch] was rejected, the status is an error, or a 2xx body is not a
    JSON object) the toast is an error and the form keeps everything
    that was typed and chosen. *)
Theorem handleSubmit_completion (c : Completion) (rnd : string) (x : Form) :
  let x' := resume_handleSubmit c rnd x in
  isLoading (fields x') = false ∧
  (∃ text, Toasts.toasts (queue (fields x')) =
           Toasts.toasts (queue (fields x)) ++
           [Toasts.mkToast rnd text (if accepted c then Toasts.success else Toasts.error)]) ∧
  (accepted c = true →
     name (fields x') = "" ∧ link (fields x') = "" ∧ email (fields x') = "" ∧
     photo (fields x') = None ∧ description (fields x') = "" ∧ photoPreview x' = "") ∧
  (accepted c = false →
     name (fields x') = name (fields x) ∧ link (fields x') = link (fields x) ∧
     email (fields x') = email (fields x) ∧ photo (fields x') = photo (fields x) ∧
     description (fields x') = description (fields x) ∧
     photoPreview x' = photoPreview x).
Proof.
  simpl. unfold resume_handleSubmit, accepted.
  destruct c as [|[msg|r]]; simpl.
  - repeat split; try discriminate. eexists. reflexivity.
  - repeat split; try discriminate. eexists. reflexivity.
  - destruct (body r) as [msg|[|message payload]]; simpl.
    + rewrite andb_false_r. repeat split; try discriminate. eexists. reflexivity.
    + rewrite andb_false_r. repeat split; try discriminate. eexists. reflexivity.
    + rewrite andb_true_r. destruct (ok r); simpl;
        repeat split; try discriminate; eexists; reflexivity.
Qed.

End AddProductMore.

Lemma handlePhotoChange_accepts_witness :
  let file := mkFile "lamp.gif" "image/gif" 1024%N in
  let x := AddProduct.mkForm
             (AddProduct.mkState "Lamp" "" "" (Some "old.png") "" false Toasts.empty_queue)
             "data:image/png;base64,AAAA" in
  let after := AddProduct.handlePhotoChange "t0" (Some file) x in
  AddProduct.photo (AddProduct.fields after.1) = Some "old.png".
Proof.
  intros file x after.
  destruct (handlePhotoChange_accepts "t0" file x) as ([Htaken _] & _ & Hkept).
  destruct Hkept as (_ & Hphoto & _); [|exact Hphoto].
  intros Hafter. destruct (Htaken Hafter) as [[Hty|[Hty|Hty]] _]; discriminate Hty.
Defined.

Lemma favourite_slot_serialises_witness :
  let tr := [Users.Mount; Users.ClickFavorite "1" "Ann Lee";
             Users.ClickFavorite "2" "Bob Ray"] in
  let m := Users.run tr Users.boot in
  Users.toggling m = 1 ∧
  Users.step m (Users.ClickFavorite "2" "Bob Ray") = m.
Proof.
  intros tr m.
  assert (Hids : Users.favourite_ids_nonempty tr).
  { repeat constructor; discriminate. }
  assert (Hone : Users.toggling m = 1) by (vm_compute; reflexivity).
  destruct (favourite_slot_serialises tr Hids) as [_ Hignored].
  split; [exact Hone | apply Hignored; exact Hone].
Defined.

(** ** The user list page: rows and toasts over whole sessions *)

Section UsersSessions.
Import Users.

Lemma row_ids_edit id d s :
  row_ids (setUsers (apply_edit id d) s) = row_ids s.
Proof.
  unfold row_ids, apply_edit. simpl. rewrite <- list_fmap_compose.
  apply list_fmap_ext. intros i u _. simpl. destruct (has_id id u); reflexivity.
Qed.

Lemma row_ids_delete id s :
  row_ids (setUsers (apply_delete id) s) `sublist_of` row_ids s.
Proof.
  unfold row_ids, apply_delete. simpl. apply fmap_sublist. apply sublist_filter.
Qed.

Lemma resume_rows k o rnd s :
  continuation_kind k ≠ KList →
  row_ids (resume k o rnd s) `sublist_of` row_ids s.
Proof.
  destruct k as [|id d|id|userId userName]; intros Hk;
    [exfalso; apply Hk; reflexivity| | |]; simpl.
  - unfold resume_handleUpdateUser. destruct o as [msg|r]; [reflexivity|].
    destruct (ok r); simpl.
    + change (row_ids (setUsers (apply_edit id d) s) `sublist_of` row_ids s).
      rewrite row_ids_edit. reflexivity.
    + destruct (message_or_empty r); reflexivity.
  - unfold resume_handleDeleteUser. destruct o as [msg|r]; [reflexivity|].
    destruct (ok r); simpl.
    + apply (row_ids_delete id s).
    + destruct (message_or_empty r); reflexivity.
  - unfold resume_handleFavorite. destruct o as [msg|r]; [reflexivity|].
    destruct (ok r); simpl.
    + destruct (body r) as [msg|[|message userList]]; reflexivity.
    + destruct (message_or_empty r); reflexivity.
Qed.

Lemma dispatch_rows a (m : Machine) :
  users (state_of a) = users (page m) →
  match a with Await req _ _ => request_kind req ≠ KList | Done _ => True end →
  row_ids (page (dispatch a m)) = row_ids (page m) ∧
  in_flight KList (dispatch a m) = in_flight KList m.
Proof.
  intros Hu Hkind. destruct a as [s|req k s]; cbn [state_of] in Hu.
  - split; [unfold row_ids; simpl; rewrite Hu; reflexivity | reflexivity].
  - split; [unfold row_ids; simpl; rewrite Hu; reflexivity|].
    rewrite in_flight_dispatch. rewrite decide_False by exact Hkind. lia.
Qed.

Lemma step_rows (m : Machine) e :
  serial m → in_flight KList m = 0 → e ≠ Mount →
  row_ids (page (step m e)) `sublist_of` row_ids (page m) ∧
  in_flight KList (step m e) = 0.
Proof.
  intros (Hpair & _ & _) Hnone He.
  destruct e as [|rnd|rnd|userId userName|field value| |id|i o rnd|dt]; cbn [step];
    [congruence|..].
  - destruct (dispatch_rows (handleUpdateUser rnd (page m)) m) as [-> ->];
      [| |split; [reflexivity | exact Hnone]]; unfold handleUpdateUser;
      destruct (userDetails (page m)); try reflexivity; try exact I;
      destruct (isUpdatingUser (page m)); try reflexivity; try exact I;
      destruct (negb (nonempty (details_id u))); try reflexivity; try exact I.
    discriminate.
  - destruct (dispatch_rows (handleDeleteUser rnd (page m)) m) as [-> ->];
      [| |split; [reflexivity | exact Hnone]]; unfold handleDeleteUser;
      destruct (userDetails (page m)); try reflexivity; try exact I;
      destruct (isDeletingUser (page m)); try reflexivity; try exact I;
      destruct (negb (nonempty (details_id u))); try reflexivity; try exact I.
    discriminate.
  - destruct (dispatch_rows (handleFavorite userId userName (page m)) m) as [-> ->];
      [| |split; [reflexivity | exact Hnone]]; unfold handleFavorite;
      destruct (truthy (isFavoriting (page m))); try reflexivity; try exact I.
    discriminate.
  - split; [reflexivity | exact Hnone].
  - split; [reflexivity | exact Hnone].
  - split; [reflexivity | exact Hnone].
  - destruct (inflight m !! i) as [[req k]|] eqn:Hi; [|split; [reflexivity | exact Hnone]].
    assert (Hkind : request_kind req = continuation_kind k).
    { rewrite Forall_forall in Hpair.
      apply (Hpair (req, k)). apply list_elem_of_lookup. exists i. exact Hi. }
    assert (Hnot : request_kind req ≠ KList).
    { intros Hk. pose proof (in_flight_positive KList m i req k Hi Hk). lia. }
    split.
    + apply resume_rows. rewrite <- Hkind. exact Hnot.
    + rewrite (in_flight_settled KList m i req k _ Hi), Hnone. reflexivity.
  - split; [reflexivity | exact Hnone].
Qed.

Lemma act_rows (x : Session) a :
  serial (machine x) → in_flight KList (machine x) = 0 → a ≠ Act Mount →
  row_ids (page (machine (act x a))) `sublist_of` row_ids (page (machine x)) ∧
  in_flight KList (machine (act x a)) = 0.
Proof.
  intros Hinv Hnone Ha. destruct a as [e|userId|i o rnd]; simpl.
  - apply step_rows; [exact Hinv | exact Hnone | congruence].
  - split; [reflexivity | exact Hnone].
  - destruct (details_inflight x !! i); [|split; [reflexivity | exact Hnone]].
    simpl. split; [|exact Hnone].
    unfold row_ids, resume_handleUserClick.
    destruct o as [msg|r]; [reflexivity|].
    destruct (ok r); [|reflexivity].
    destruct (body r) as [msg|[|message data]]; reflexivity.
Qed.

Lemma play_rows tr (x : Session) :
  serial (machine x) → in_flight KList (machine x) = 0 →
  Forall (λ a, a ≠ Act Mount) tr →
  row_ids (page (machine (play tr x))) `sublist_of` row_ids (page (machine x)).
Proof.
  revert x. induction tr as [|a tr IH]; intros x Hinv Hnone Htr; [reflexivity|].
  apply Forall_cons in Htr as [Ha Htr].
  destruct (act_rows x a Hinv Hnone Ha) as [Hsub Hnone'].
  simpl. etransitivity; [|exact Hsub].
  apply IH; [apply serial_act; exact Hinv | exact Hnone' | exact Htr].
Qed.

(** X24. Once no list request is pending, nothing the page does adds a
    row or changes the identifier of a row: through any further clicks,
    edits, deletes, toggles and answers, the identifier column stays a
    sub-sequence, in order, of what it was (rows only go away, by
    deletes). *)
Theorem rows_never_added (before after : list Action) :
  let x := play before start in
  in_flight KList (machine x) = 0 →
  Forall (λ a, a ≠ Act Mount) after →
  row_ids (page (machine (play after x))) `sublist_of` row_ids (page (machine x)).
Proof.
  intros x Hnone Hafter. apply play_rows; [|exact Hnone | exact Hafter].
  apply (serial_play before start serial_start).
Qed.

Lemma rows_never_added_witness :
  let ann := mkUser (Some "1") None (Some "Ann Lee") None None None None None None in
  let bob := mkUser None (Some "2") (Some "Bob Ray") None None None None None None in
  let listed := Resolved (mkResponse 200 (inr (JObject None [ann; bob]))) in
  let opened := Resolved (mkResponse 200 (inr (JObject None (mkDetails (Some ann) None ann)))) in
  let done := Resolved (mkResponse 200 (inr (JObject None []))) in
  let before := [Act Mount; Act (Settle 0 listed "r0")] in
  let after := [ClickRow "1"; SettleDetails 0 opened "r1"; Act (ClickDelete "r2");
                Act (Settle 0 done "r3")] in
  row_ids (page (machine (play after (play before start)))) `sublist_of`
  [Some "1"; Some "2"].
Proof.
  intros ann bob listed opened done before after.
  apply (rows_never_added before after); [reflexivity|].
  repeat constructor; discriminate.
Defined.

Lemma resume_queue k o rnd s :
  queue (resume k o rnd s) = queue s ∨
  ∃ e, queue (resume k o rnd s) = Toasts.queue_step (queue s) e.
Proof.
  destruct k as [|id d|id|userId userName]; simpl.
  - unfold resume_fetchUsers. destruct o as [msg|r];
      [right; eexists (Toasts.Push _ _ _); reflexivity|].
    destruct (ok r); [|right; eexists (Toasts.Push _ _ _); reflexivity].
    destruct (body r) as [msg|[|message userList]];
      [right; eexists (Toasts.Push _ _ _); reflexivity
      |right; eexists (Toasts.Push _ _ _); reflexivity
      |left; reflexivity].
  - unfold resume_handleUpdateUser. destruct o as [msg|r];
      [right; eexists (Toasts.Push _ _ _); reflexivity|].
    destruct (ok r); simpl; [right; eexists (Toasts.Push _ _ _); reflexivity|].
    destruct (message_or_empty r); right; eexists (Toasts.Push _ _ _); reflexivity.
  - unfold resume_handleDeleteUser. destruct o as [msg|r];
      [right; eexists (Toasts.Push _ _ _); reflexivity|].
    destruct (ok r); simpl; [right; eexists (Toasts.Push _ _ _); reflexivity|].
    destruct (message_or_empty r); right; eexists (Toasts.Push _ _ _); reflexivity.
  - unfold resume_handleFavorite. destruct o as [msg|r];
      [right; eexists (Toasts.Push _ _ _); reflexivity|].
    destruct (ok r); simpl.
    + destruct (body r) as [msg|[|message userList]];
        right; eexists (Toasts.Push _ _ _); reflexivity.
    + destruct (message_or_empty r); right; eexists (Toasts.Push _ _ _); reflexivity.
Qed.

Lemma act_queue (x : Session) a :
  queue (page (machine (act x a))) = queue (page (machine x)) ∨
  ∃ e, queue (page (machine (act x a))) = Toasts.queue_step (queue (page (machine x))) e.
Proof.
  destruct a as [e|userId|i o rnd]; simpl.
  - destruct e as [|rnd|rnd|userId userName|field value| |id|i o rnd|dt]; cbn [step].
    + left. reflexivity.
    + unfold handleUpdateUser.
      destruct (userDetails (page (machine x))); [|left; reflexivity].
      destruct (isUpdatingUser (page (machine x))); [left; reflexivity|].
      destruct (negb (nonempty (details_id u)));
        [right; eexists (Toasts.Push _ _ _); reflexivity | left; reflexivity].
    + unfold handleDeleteUser.
      destruct (userDetails (page (machine x))); [|left; reflexivity].
      destruct (isDeletingUser (page (machine x))); [left; reflexivity|].
      destruct (negb (nonempty (details_id u)));
        [right; eexists (Toasts.Push _ _ _); reflexivity | left; reflexivity].
    + unfold handleFavorite.
      destruct (truthy (isFavoriting (page (machine x)))); left; reflexivity.
    + left. reflexivity.
    + left. reflexivity.
    + right. exists (Toasts.Dismiss id). reflexivity.
    + destruct (inflight (machine x) !! i) as [[req k]|]; [|left; reflexivity].
      apply resume_queue.
    + right. exists (Toasts.Elapse dt). reflexivity.
  - left. reflexivity.
  - destruct (details_inflight x !! i); [|left; reflexivity]. simpl.
    unfold resume_handleUserClick.
    destruct o as [msg|r]; [right; eexists (Toasts.Push _ _ _); reflexivity|].
    destruct (ok r); [|right; eexists (Toasts.Push _ _ _); reflexivity].
    destruct (body r) as [msg|[|message data]];
      [right; eexists (Toasts.Push _ _ _); reflexivity
      |right; eexists (Toasts.Push _ _ _); reflexivity
      |left; reflexivity].
Qed.

Lemma armed_play tr (x : Session) :
  Toasts.armed (queue (page (machine x))) →
  Toasts.armed (queue (page (machine (play tr x)))).
Proof.
  revert x. induction tr as [|a tr IH]; intros x Hx; [exact Hx|].
  simpl. apply IH.
  destruct (act_queue x a) as [->|[e ->]]; [exact Hx | apply armed_step; exact Hx].
Qed.

(** X25. On the user list page every toast goes through [showToast]: at
    each step of a session the toast cell is left alone or changed by
    one [showToast], one [removeToast] or the timers. So whatever the
    session, 4000 ms without another event leave no toast on the page. *)
Theorem page_toasts_drain (tr : list Action) (dt : nat) :
  4000 ≤ dt →
  toasts (page (machine (play (tr ++ [Act (Elapse dt)]) start))) = [].
Proof.
  intros Hdt. unfold play. rewrite foldl_app. simpl.
  apply armed_quiet; [|exact Hdt].
  apply (armed_play tr start). apply armed_empty.
Qed.

Lemma page_toasts_drain_witness :
  let ann := mkUser None None (Some "Ann Lee") None None None None None None in
  let opened := Resolved (mkResponse 200 (inr (JObject None (mkDetails None None ann)))) in
  toasts (page (machine (play ([Act Mount; Act (Settle 0 (Rejected "Failed to fetch") "r0");
                                ClickRow ""; SettleDetails 0 opened "r1";
                                Act (ClickUpdate "r2")] ++ [Act (Elapse 4000)]) start))) = [].
Proof. intros ann opened. apply (page_toasts_drain _ 4000). lia. Defined.

End UsersSessions.

Section UsersDetailsRace.
Import Users.

Lemma details_filled (r : Response Details) message data rnd s :
  ok r = true → body r = inr (JObject message data) →
  resume_handleUserClick (Resolved r) rnd s =
  setIsLoadingDetails false (setUserDetails (λ _, Some (picked data)) s).
Proof.
  intros Hok Hbody. unfold resume_handleUserClick. rewrite Hok, Hbody. reflexivity.
Qed.

(** X26. A detail request is never cancelled and its answer is applied
    when it arrives, whatever happened since the click. If the modal was
    closed meanwhile, a 2xx answer still fills the details, the modal
    staying closed. If two rows were clicked, the details shown in the
    end are those of the answer that arrives last, not of the row
    clicked last. *)
Theorem detail_answers_apply_on_arrival (first second rnd1 rnd2 : string) (s : State)
    (r1 r2 : Response Details) (m1 m2 : option string) (data1 data2 : Details) :
  ok r1 = true → body r1 = inr (JObject m1 data1) →
  ok r2 = true → body r2 = inr (JObject m2 data2) →
  let closed := closeModal (handleUserClick first s).2 in
  let late := resume_handleUserClick (Resolved r1) rnd1 closed in
  let clicked_twice := (handleUserClick second (handleUserClick first s).2).2 in
  let swapped := resume_handleUserClick (Resolved r1) rnd1
                   (resume_handleUserClick (Resolved r2) rnd2 clicked_twice) in
  (isModalOpen late = false ∧ userDetails late = Some (picked data1)) ∧
  (userDetails swapped = Some (picked data1) ∧ isModalOpen swapped = true ∧
   isLoadingDetails swapped = false).
Proof.
  intros Hok1 Hb1 Hok2 Hb2 closed late clicked_twice swapped.
  subst late swapped.
  rewrite !(details_filled r1 m1 data1) by assumption.
  rewrite (details_filled r2 m2 data2) by assumption.
  repeat split.
Qed.

Lemma detail_answers_apply_on_arrival_witness :
  let ann := mkUser (Some "1") None (Some "Ann Lee") None None None None None None in
  let bob := mkUser (Some "2") None (Some "Bob Ray") None None None None None None in
  let r1 := mkResponse 200 (inr (JObject None (mkDetails (Some ann) None ann))) in
  let r2 := mkResponse 200 (inr (JObject None (mkDetails (Some bob) None bob))) in
  let clicked_twice := (handleUserClick "2" (handleUserClick "1" initial).2).2 in
  userDetails (resume_handleUserClick (Resolved r1) "a"
                 (resume_handleUserClick (Resolved r2) "b" clicked_twice)) = Some ann.
Proof.
  intros ann bob r1 r2 clicked_twice.
  apply (detail_answers_apply_on_arrival "1" "2" "a" "b" initial r1 r2 None None
           (mkDetails (Some ann) None ann) (mkDetails (Some bob) None bob));
    reflexivity.
Defined.

End UsersDetailsRace.
